(** * OAuth 2.0 / OpenID Connect test server: session lifecycle

    A shallow embedding of [src/test-integration.ts]: the session store, the
    resolution of the session identifier and the four request handlers
    ([/login], [/callback], [/api/status], [/logout]), with the theorems that
    settle what the specification says about them; then the log buffer, the
    log channel of [/api/logs] and the remaining routes, with what the code
    guarantees about them.

    Strings are sequences of 8-bit code units (the form in which Node hands
    header values to the program). *)

From Stdlib Require Import ZArith List Ascii String Bool Lia.
From stdpp Require Import base option gmap strings list fin_maps pretty.

Local Open Scope string_scope.
Local Open Scope Z_scope.

(* ===================================================================== *)
(** * JavaScript string primitives used by the source *)
(* ===================================================================== *)

Module Js.

(** [s.split(c)] for a one-character separator: never empty, the pieces
    are the maximal runs without [c]. *)
Fixpoint split (sep : ascii) (s : string) : list string :=
  match s with
  | EmptyString => [EmptyString]
  | String c r =>
      if Ascii.eqb c sep then EmptyString :: split sep r
      else match split sep r with
           | h :: t => String c h :: t
           | [] => [String c EmptyString]
           end
  end.

(** White space and line terminators of ECMAScript that fit in one code
    unit below 256: TAB, LF, VT, FF, CR, SP and NBSP. *)
Definition isWhiteSpace (c : ascii) : bool :=
  let n := nat_of_ascii c in
  ((9 <=? n)%nat && (n <=? 13)%nat) || (n =? 32)%nat || (n =? 160)%nat.

Fixpoint trimStart (s : string) : string :=
  match s with
  | EmptyString => EmptyString
  | String c r => if isWhiteSpace c then trimStart r else s
  end.

Fixpoint trimEnd (s : string) : string :=
  match s with
  | EmptyString => EmptyString
  | String c r =>
      match trimEnd r with
      | EmptyString => if isWhiteSpace c then EmptyString else String c EmptyString
      | r' => String c r'
      end
  end.

(** [s.trim()] *)
Definition trim (s : string) : string := trimEnd (trimStart s).

(** [s.startsWith(p)] *)
Definition startsWith (p s : string) : bool := String.prefix p s.

(** [s.substring(a, b)] for [a <= b] *)
Definition substring (a b : nat) (s : string) : string :=
  String.substring a (b - a) s.

(** Truthiness of a value that is a string or [undefined]. *)
Definition truthy (v : option string) : bool :=
  match v with
  | Some s => negb (String.eqb s "")
  | None => false
  end.

(** A string-or-undefined value inside a template literal. *)
Definition template (v : option string) : string :=
  match v with
  | Some s => s
  | None => "undefined"
  end.

(** [a || b] where both sides are strings or [undefined]. *)
Definition or (a b : option string) : option string :=
  if truthy a then a else b.

(** [a || b] on strings-or-undefined, with a string on the right. *)
Definition or_else (v : option string) (d : string) : string :=
  match v with
  | Some s => if String.eqb s "" then d else s
  | None => d
  end.

Definition hexDigit (n : nat) : ascii :=
  nth n (list_ascii_of_string "0123456789ABCDEF") "0"%char.

(** Characters [encodeURIComponent] leaves alone:
    [A-Z a-z 0-9 - _ . ! ~ * ' ( )]. *)
Definition uriUnreserved (c : ascii) : bool :=
  let n := nat_of_ascii c in
  ((65 <=? n)%nat && (n <=? 90)%nat) || ((97 <=? n)%nat && (n <=? 122)%nat)
  || ((48 <=? n)%nat && (n <=? 57)%nat)
  || existsb (Nat.eqb n) [45; 95; 46; 33; 126; 42; 39; 40; 41]%nat.

(** [encodeURIComponent(s)] on the UTF-8 code units of [s]. *)
Fixpoint encodeURIComponent (s : string) : string :=
  match s with
  | EmptyString => EmptyString
  | String c r =>
      if uriUnreserved c then String c (encodeURIComponent r)
      else
        let n := nat_of_ascii c in
        String "%"%char
          (String (hexDigit (n / 16)) (String (hexDigit (n mod 16))
             (encodeURIComponent r)))
  end.

(** The message of the [TypeError] V8 throws on reading member [name] of
    [null]. *)
Definition nullMemberError (name : string) : string :=
  "Cannot read properties of null (reading '" +:+ name +:+ "')".

Definition isHex (c : ascii) : bool :=
  let n := nat_of_ascii c in
  ((48 <=? n)%nat && (n <=? 57)%nat) || ((65 <=? n)%nat && (n <=? 70)%nat)
  || ((97 <=? n)%nat && (n <=? 102)%nat).

(** Characters [encodeURI] leaves alone: those of [encodeURIComponent] and
    [; / ? : @ & = + $ , #]. *)
Definition uriKept (c : ascii) : bool :=
  uriUnreserved c
  || existsb (Nat.eqb (nat_of_ascii c)) [59; 47; 63; 58; 64; 38; 61; 43; 36; 44; 35]%nat.

(** [encodeURI] of one code unit. *)
Definition encodeURIChar (c : ascii) : string :=
  if uriKept c then String c EmptyString
  else
    let n := nat_of_ascii c in
    String "%"%char (String (hexDigit (n / 16)) (String (hexDigit (n mod 16)) EmptyString)).

(** Characters the package [encodeurl] (1.0.2) passes over:
    [! % & ' ( ) * + , - . / 0-9 : ; = ? @ A-Z [ ] _ a-z ~]. *)
Definition urlPassed (c : ascii) : bool :=
  let n := nat_of_ascii c in
  (n =? 33)%nat || (n =? 37)%nat || ((38 <=? n)%nat && (n <=? 59)%nat) || (n =? 61)%nat
  || ((63 <=? n)%nat && (n <=? 91)%nat) || (n =? 93)%nat || (n =? 95)%nat
  || ((97 <=? n)%nat && (n <=? 122)%nat) || (n =? 126)%nat.

(** [encodeUrl(url)] of the package [encodeurl] 1.0.2, on code units: every
    character that is not passed over goes through [encodeURI], and so does
    a [%] that does not start an escape, together with the one or two
    characters that show it does not.  The fuel is the length of [url]. *)
Fixpoint encodeUrlFrom (fuel : nat) (s : string) : string :=
  match fuel with
  | O => EmptyString
  | S fuel =>
      match s with
      | EmptyString => EmptyString
      | String c r =>
          if Ascii.eqb c "%"%char then
            match r with
            | EmptyString => encodeURIChar c
            | String h1 r1 =>
                if isHex h1 then
                  match r1 with
                  | EmptyString => String c (encodeUrlFrom fuel r)
                  | String h2 r2 =>
                      if isHex h2 then String c (encodeUrlFrom fuel r)
                      else encodeURIChar c +:+ encodeURIChar h1 +:+ encodeURIChar h2
                           +:+ encodeUrlFrom fuel r2
                  end
                else encodeURIChar c +:+ encodeURIChar h1 +:+ encodeUrlFrom fuel r1
            end
          else if urlPassed c then String c (encodeUrlFrom fuel r)
          else encodeURIChar c +:+ encodeUrlFrom fuel r
      end
  end.

Definition encodeUrl (url : string) : string :=
  encodeUrlFrom (String.length url) url.

End Js.

(* ===================================================================== *)
(** * Requests and the session identifier *)
(* ===================================================================== *)

(** What the handlers read of an Express request: [req.headers.cookie],
    [req.headers.authorization] and [req.query.code] as the cast of the
    source types it, a string; [None] is [undefined].  (A [code] that is an
    array or an object is in [callbackCall].) *)
Record Request := mkRequest {
  cookie : option string;
  authorization : option string;
  query_code : option string
}.

(** [cookieHeader.split(';').map(c => c.trim())
      .find(c => c.startsWith('sessionId='))] *)
Definition findSessionCookie (cookieHeader : string) : option string :=
  List.find (Js.startsWith "sessionId=")
    (List.map Js.trim (Js.split ";"%char cookieHeader)).

(** [getSessionId(req)] *)
Definition getSessionId (req : Request) : string :=
  let fallback := Js.or_else (authorization req) "default" in
  match cookie req with
  | Some cookieHeader =>
      if String.eqb cookieHeader "" then fallback
      else
        match findSessionCookie cookieHeader with
        | Some sessionCookie => nth 1 (Js.split "="%char sessionCookie) ""
        | None => fallback
        end
  | None => fallback
  end.

(* ===================================================================== *)
(** * Data model *)
(* ===================================================================== *)

(** [keycloakConfig] *)
Record KeycloakConfig := mkConfig {
  endpoint : string;
  clientId : string;
  clientSecret : string;
  redirectUri : string;
  logoutRedirectUri : string;
  scope : string
}.

(** The configuration as the source builds it from [process.env]:
    [process.env.X || fallback]. *)
Definition keycloakConfig (env : string -> option string) : KeycloakConfig :=
  {| endpoint := Js.or_else (env "KEYCLOAK_ENDPOINT")
                   "https://auth-dev.curriculobe.com.br/realms/bestema-dev";
     clientId := Js.or_else (env "KEYCLOAK_CLIENT_ID") "";
     clientSecret := Js.or_else (env "KEYCLOAK_CLIENT_SECRET") "";
     redirectUri := Js.or_else (env "KEYCLOAK_REDIRECT_URI")
                      "http://localhost:3000/callback";
     logoutRedirectUri := Js.or_else (env "KEYCLOAK_LOGOUT_REDIRECT_URI")
                            "http://localhost:3000/logout-success";
     scope := Js.or_else (env "KEYCLOAK_SCOPE") "openid profile email" |}.

(** A JSON object received from the identity provider, by its
    string-valued members ([tokenResponse.data], [userInfoResponse.data],
    [error.response.data]); a member that is missing reads as
    [undefined]. *)
Abbreviation Body := (gmap string string).

(** What axios hands over as [response.data]: a JSON object, JSON [null],
    or the empty string of a response that has no body.  (Other bodies, a
    number, an array or a text that is not empty, are not modelled.) *)
Inductive Data :=
| Null
| Empty
| Object (members : Body).

(** [data.name] on data that is not [null] (on [null] the read throws). *)
Definition member (data : Data) (name : string) : option string :=
  match data with
  | Object members => members !! name
  | _ => None
  end.

(** [interface UserSession].  In [userInfo], [None] stands for the values
    that are falsy ([undefined], [null], the empty string): a handler only
    tests the field and, when it is truthy, reads or passes on the claims. *)
Record UserSession := mkSession {
  idToken : option string;
  accessToken : option string;
  refreshToken : option string;
  userInfo : option Body;
  isAuthenticated : bool
}.

Inductive LogType := info | success | error | warning.

(** [interface LogEntry] *)
Record LogEntry := mkLog {
  timestamp : Z;
  message : string;
  type : LogType
}.

(** Objects live in a heap and the [sessions] map holds references to
    them, so that an assignment to a field of a session object is seen
    through the map, as in the source. *)
Abbreviation loc := positive.

Record Store := mkStore {
  sessions : gmap string loc;
  heap : gmap loc UserSession
}.

(** The process state: the session store, the log buffer, and how many
    random numbers and dates have been drawn so far. *)
Record World := mkWorld {
  store : Store;
  logs : list LogEntry;
  rng : nat;
  clk : nat
}.

(** What [sessions.get(id)] gives once dereferenced. *)
Definition session_of (s : Store) (id : string) : option UserSession :=
  l ← sessions s !! id; heap s !! l.

(** The object a field read sees at a location.  (Every location the map
    holds is allocated in the worlds the server reaches; elsewhere the read
    gives an object that is not authenticated.) *)
Definition deref (s : Store) (l : loc) : UserSession :=
  default (mkSession None None None None false) (heap s !! l).

(** ** Outbound HTTP and axios *)

Inductive Method := GET | POST.

Record HttpRequest := mkHttp {
  method : Method;
  url : string;
  req_headers : list (string * string);
  form : list (string * string)
}.

(** What the network gives back for a request. *)
Inductive HttpOutcome :=
| NetworkError (msg : string)
| HttpResponse (status : Z) (data : Data).

Record AxiosError := mkAxiosError {
  response_data : option Data;
  error_message : string
}.

(** An awaited axios promise: resolved with [response.data] or rejected. *)
Inductive Settled :=
| Fulfilled (data : Data)
| Rejected (e : AxiosError).

(** axios rejects on a transport error and, with its default
    [validateStatus], on every status outside 200..299. *)
Definition axios (o : HttpOutcome) : Settled :=
  match o with
  | NetworkError msg => Rejected (mkAxiosError None msg)
  | HttpResponse status data =>
      if (200 <=? status) && (status <? 300) then Fulfilled data
      else Rejected (mkAxiosError (Some data)
                       ("Request failed with status code " +:+ pretty status))
  end.

(** ** The response under construction *)

(** [/api/status] payload *)
Record StatusPayload := mkPayload {
  p_server : string;
  p_user : string;
  p_userInfo : option Body;
  p_timestamp : Z;
  p_sessions : nat;
  p_logs : nat;
  p_sessionId : string
}.

(** How the response was sent; for a redirect, [target] is the argument of
    [res.redirect]. *)
Inductive Sent :=
| NotSent
| Redirected (target : string)
| Json (payload : StatusPayload).

Record Response := mkResponse {
  statusCode : Z;
  headers : gmap string string;
  sent : Sent
}.

Definition freshResponse : Response := mkResponse 200 ∅ NotSent.

(** ** The environment of one request: random numbers
    ([Math.random().toString(36)]), the clock, the identity provider, and
    how Express writes a redirect target into the [Location] header
    ([res.location]: [encodeUrl] of the package [encodeurl]).
    Requests are handled one after the other, each in an environment of its
    own; within one request every outbound request is made at most once. *)
Record Env := mkEnv {
  random36 : nat -> string;
  now : nat -> Z;
  http : HttpRequest -> HttpOutcome;
  encodeUrl : string -> string
}.

(** ** The log buffer *)

(** [logs.slice(-n)] *)
Definition sliceLast {A} (n : nat) (l : list A) : list A :=
  skipn (List.length l - n) l.

(** [addLog(message, type)] on the log buffer, at date [date]: push, then
    keep the last 100 entries.  (The broadcast to the connected log clients
    and the console line do not touch the process state.) *)
Definition addLog (date : Z) (message : string) (type : LogType)
    (logs : list LogEntry) : list LogEntry :=
  let logEntry := mkLog date message type in
  let logs := (logs ++ [logEntry])%list in
  if (100 <? List.length logs)%nat then sliceLast 100 logs else logs.

(* ===================================================================== *)
(** * Effects of a handler and their meaning *)
(* ===================================================================== *)

(** What a handler does to the world around it, with the type of what it
    gets back. *)
Inductive Eff : Type -> Type :=
| MathRandom36 : Eff string
    (** [Math.random().toString(36)] *)
| NewDate : Eff Z
    (** [new Date()] *)
| Axios (rq : HttpRequest) : Eff Settled
    (** [await axios.post(...)], [await axios.get(...)] *)
| SessionsGet (id : string) : Eff (option loc)
    (** [sessions.get(id)] *)
| SessionsSet (id : string) (l : loc) : Eff unit
    (** [sessions.set(id, obj)] *)
| SessionsDelete (id : string) : Eff bool
    (** [sessions.delete(id)] *)
| SessionsSize : Eff nat
    (** [sessions.size] *)
| New (s : UserSession) : Eff loc
    (** an object literal of type [UserSession] *)
| Fields (l : loc) : Eff UserSession
    (** reading the fields of a session object *)
| SetUserInfo (l : loc) (v : Data) : Eff unit
    (** [obj.userInfo = v] *)
| AddLog (message : string) (type : LogType) : Eff unit
    (** [addLog(message, type)] *)
| LogsLength : Eff nat
    (** [logs.length] *)
| SetHeader (name value : string) : Eff unit
    (** [res.setHeader(name, value)] *)
| Redirect (target : string) : Eff unit
    (** [res.redirect(target)]: status 302, [Location: encodeUrl(target)] *)
| SendJson (payload : StatusPayload) : Eff unit.
    (** [res.json(payload)] *)

(** Handlers are trees of effects. *)
Inductive Prog (R : Type) : Type :=
| Ret (r : R)
| Vis {X : Type} (e : Eff X) (k : X -> Prog R).

Arguments Ret {R} r.
Arguments Vis {R X} e k.

Fixpoint bind {A B} (m : Prog A) (f : A -> Prog B) : Prog B :=
  match m with
  | Ret a => f a
  | Vis e k => Vis e (fun x => bind (k x) f)
  end.

Definition trigger {X} (e : Eff X) : Prog X := Vis e Ret.

#[global] Instance Prog_ret : MRet Prog := @Ret.
#[global] Instance Prog_bind : MBind Prog := fun A B f m => bind m f.

(** An effect that was performed, with what it gave back. *)
Inductive Action :=
| Did {X : Type} (e : Eff X) (x : X).

(** One step of a run: the action and the process state it was performed in. *)
Record Step := mkStep {
  act : Action;
  before : World
}.

Definition with_store (w : World) (s : Store) : World :=
  mkWorld s (logs w) (rng w) (clk w).

(** The claims a truthy value of [userInfo] holds. *)
Definition claimsOf (v : Data) : option Body :=
  match v with
  | Object members => Some members
  | _ => None
  end.

(** [obj.userInfo = v] *)
Definition assignUserInfo (v : Data) (s : UserSession) : UserSession :=
  mkSession (idToken s) (accessToken s) (refreshToken s) (claimsOf v) (isAuthenticated s).

(** The meaning of one effect. *)
Definition perform (env : Env) {X} (e : Eff X) (w : World) (r : Response)
    : X * World * Response :=
  match e in Eff X return X * World * Response with
  | MathRandom36 =>
      (random36 env (rng w), mkWorld (store w) (logs w) (S (rng w)) (clk w), r)
  | NewDate =>
      (now env (clk w), mkWorld (store w) (logs w) (rng w) (S (clk w)), r)
  | Axios rq => (axios (http env rq), w, r)
  | SessionsGet id => (sessions (store w) !! id, w, r)
  | SessionsSet id l =>
      (tt, with_store w (mkStore (<[id := l]> (sessions (store w))) (heap (store w))), r)
  | SessionsDelete id =>
      (bool_decide (is_Some (sessions (store w) !! id)),
       with_store w (mkStore (delete id (sessions (store w))) (heap (store w))), r)
  | SessionsSize => (size (sessions (store w)), w, r)
  | New s =>
      let l := fresh (dom (heap (store w))) in
      (l, with_store w (mkStore (sessions (store w)) (<[l := s]> (heap (store w)))), r)
  | Fields l => (deref (store w) l, w, r)
  | SetUserInfo l v =>
      (tt, with_store w (mkStore (sessions (store w))
                           (alter (assignUserInfo v) l (heap (store w)))), r)
  | AddLog message type =>
      (tt, mkWorld (store w) (addLog (now env (clk w)) message type (logs w))
             (rng w) (S (clk w)), r)
  | LogsLength => (List.length (logs w), w, r)
  | SetHeader name value =>
      (tt, w, mkResponse (statusCode r) (<[name := value]> (headers r)) (sent r))
  | Redirect target =>
      (tt, w, mkResponse 302 (<["Location" := encodeUrl env target]> (headers r))
                (Redirected target))
  | SendJson payload =>
      (tt, w, mkResponse (statusCode r) (headers r) (Json payload))
  end.

(** The outcome of running a handler. *)
Record Run (R : Type) := mkRun {
  value : R;
  final : World;
  response : Response;
  trace : list Step
}.

Arguments mkRun {R}.
Arguments value {R}.
Arguments final {R}.
Arguments response {R}.
Arguments trace {R}.

Fixpoint exec (env : Env) {R} (p : Prog R) (w : World) (r : Response) : Run R :=
  match p with
  | Ret v => mkRun v w r []
  | Vis e k =>
      let '(x, w', r') := perform env e w r in
      let run := exec env (k x) w' r' in
      mkRun (value run) (final run) (response run)
        (mkStep (Did e x) w :: trace run)
  end.

(** A request is handled on a response that has nothing set yet. *)
Definition handle (env : Env) (p : Prog unit) (w : World) : Run unit :=
  exec env p w freshResponse.

(* ===================================================================== *)
(** * The handlers *)
(* ===================================================================== *)

(** [generateSessionId()] *)
Definition generateSessionId : Prog string :=
  a ← trigger MathRandom36;
  b ← trigger MathRandom36;
  mret (Js.substring 2 15 a +:+ Js.substring 2 15 b).

Section Handlers.

Variable keycloak : KeycloakConfig.

(** [GET /api/status] *)
Definition status (req : Request) : Prog unit :=
  let sessionId := getSessionId req in
  found ← trigger (SessionsGet sessionId);
  userSession ← match found with
                | Some l => trigger (Fields l)
                | None => mret (mkSession None None None None false)
                end;
  let '(userStatus, shown) :=
    if isAuthenticated userSession then
      match userInfo userSession with
      | Some claims =>
          let username :=
            Js.or_else (Js.or (claims !! "preferred_username") (claims !! "email"))
              "User" in
          ("🟢 Authenticated (" +:+ username +:+ ")", Some claims)
      | None => ("🟢 Authenticated", None)
      end
    else ("❌ Not Authenticated", None) in
  date ← trigger NewDate;
  nsessions ← trigger SessionsSize;
  nlogs ← trigger LogsLength;
  trigger (SendJson (mkPayload "🟢 Server Online" userStatus shown date
                       nsessions nlogs sessionId));;
  trigger (AddLog ("📊 Status checked for session: "
                     +:+ Js.substring 0 8 sessionId +:+ "...") info).

(** [GET /login] *)
Definition authUrl : string :=
  endpoint keycloak +:+ "/protocol/openid-connect/auth?"
  +:+ "client_id=" +:+ clientId keycloak +:+ "&"
  +:+ "redirect_uri=" +:+ Js.encodeURIComponent (redirectUri keycloak) +:+ "&"
  +:+ "response_type=code&"
  +:+ "scope=" +:+ Js.encodeURIComponent (scope keycloak).

Definition login (req : Request) : Prog unit :=
  trigger (AddLog "🔑 Redirecting to Keycloak for authentication..." info);;
  trigger (Redirect authUrl).

(** [GET /callback] *)
Definition tokenRequest (authCode : string) : HttpRequest :=
  mkHttp POST (endpoint keycloak +:+ "/protocol/openid-connect/token")
    [("Content-Type", "application/x-www-form-urlencoded")]
    [("grant_type", "authorization_code");
     ("client_id", clientId keycloak);
     ("client_secret", clientSecret keycloak);
     ("code", authCode);
     ("redirect_uri", redirectUri keycloak)].

Definition userInfoRequest (access_token : option string) : HttpRequest :=
  mkHttp GET (endpoint keycloak +:+ "/protocol/openid-connect/userinfo")
    [("Authorization", "Bearer " +:+ Js.template access_token)]
    [].

(** [error.response?.data?.error_description || error.response?.data
     || error.message] inside a template literal: an object prints as
    [[object Object]]; [null] and the empty string are falsy. *)
Definition errorMsg (e : AxiosError) : string :=
  match response_data e with
  | Some (Object data) => Js.or_else (data !! "error_description") "[object Object]"
  | _ => error_message e
  end.

(** The first lines of the callback: the identifier of the request, or a
    minted one when that is ["default"]. *)
Definition callbackSession (req : Request) : Prog string :=
  let sessionId := getSessionId req in
  if String.eqb sessionId "default" then generateSessionId else mret sessionId.

(** The [catch] of the token exchange, for an error that prints as
    [errorMsg]. *)
Definition exchangeFailed (errorMsg : string) : Prog unit :=
  trigger (AddLog ("❌ Error obtaining tokens: " +:+ errorMsg) error);;
  trigger (Redirect "/?error=auth_failed").

Definition callback (req : Request) : Prog unit :=
  let authCode := query_code req in
  sessionId ← callbackSession req;
  if negb (Js.truthy authCode) then
    trigger (AddLog "❌ Authorization code not found in callback" error);;
    trigger (Redirect "/?error=no_auth_code")
  else
    let authCode := Js.template authCode in
    trigger (AddLog ("🔄 Authorization code received: "
                       +:+ Js.substring 0 20 authCode +:+ "...") success);;
    trigger (AddLog "🔄 Exchanging code for access tokens..." info);;
    tokenResponse ← trigger (Axios (tokenRequest authCode));
    match tokenResponse with
    | Fulfilled data =>
        trigger (AddLog "🎉 Tokens received successfully!" success);;
        match data with
        | Null =>
            (* [tokenResponse.data.id_token] throws inside the [try] *)
            exchangeFailed (Js.nullMemberError "id_token")
        | _ =>
            userSession ← trigger (New (mkSession (member data "id_token")
                                          (member data "access_token")
                                          (member data "refresh_token")
                                          None true));
            trigger (SessionsSet sessionId userSession);;
            userInfoResponse ← trigger (Axios (userInfoRequest (member data "access_token")));
            match userInfoResponse with
            | Fulfilled claims =>
                trigger (SetUserInfo userSession claims);;
                match claims with
                | Null =>
                    (* [userInfoResponse.data.preferred_username] throws
                       inside the inner [try] *)
                    trigger (AddLog "⚠️ Could not fetch user information" warning)
                | _ =>
                    trigger (AddLog ("👤 User authenticated: "
                                       +:+ Js.template (Js.or (member claims "preferred_username")
                                                          (member claims "email"))) success)
                end
            | Rejected userInfoError =>
                trigger (AddLog "⚠️ Could not fetch user information" warning)
            end;;
            trigger (AddLog "✅ Authentication completed! Redirecting to main page..."
                       success);;
            trigger (SetHeader "Set-Cookie"
                       ("sessionId=" +:+ sessionId +:+ "; HttpOnly; Path=/; Max-Age=86400"));;
            trigger (Redirect "/?auth=success")
        end
    | Rejected err => exchangeFailed (errorMsg err)
    end.

(** [GET /logout] *)
Definition logoutBase : string :=
  endpoint keycloak +:+ "/protocol/openid-connect/logout?"
  +:+ "client_id=" +:+ clientId keycloak +:+ "&"
  +:+ "post_logout_redirect_uri="
  +:+ Js.encodeURIComponent (logoutRedirectUri keycloak).

Definition logoutUrl (userSession : UserSession) : string :=
  logoutBase
  +:+ (if Js.truthy (idToken userSession)
       then "&id_token_hint=" +:+ Js.template (idToken userSession)
       else "").

Definition logout (req : Request) : Prog unit :=
  let sessionId := getSessionId req in
  found ← trigger (SessionsGet sessionId);
  let noSession :=
    trigger (AddLog "⚠️ Logout attempt without active session" warning);;
    trigger (Redirect "/logout-success") in
  match found with
  | None => noSession
  | Some l =>
      userSession ← trigger (Fields l);
      if negb (isAuthenticated userSession) then noSession
      else
        let target := logoutUrl userSession in
        trigger (AddLog "🚪 Redirecting to Keycloak for logout..." info);;
        trigger (SessionsDelete sessionId);;
        trigger (SetHeader "Set-Cookie" "sessionId=; HttpOnly; Path=/; Max-Age=0");;
        trigger (Redirect target)
  end.

(** The four legs of the flow. *)
Inductive Leg := LegA | LegB | LegC | LegD.

Definition handler (leg : Leg) : Request -> Prog unit :=
  match leg with
  | LegA => login
  | LegB => callback
  | LegC => status
  | LegD => logout
  end.

End Handlers.

(** ** The callback as Express calls it *)

(** [req.query.code] as Express parses it: missing, a string, or, for a
    repeated or bracketed parameter, an array or an object.  The handler
    casts it to [string] without a check. *)
Inductive QueryValue :=
| QMissing
| QString (s : string)
| QStructured.

Record Arrival := mkArrival {
  arr_cookie : option string;
  arr_authorization : option string;
  arr_code : QueryValue
}.

(** A call of a handler returns, or its promise is rejected with an error
    that nothing in the handler catches. *)
Inductive Outcome :=
| Returned (run : Run unit)
| Threw (run : Run unit) (message : string).

(** The callback on what arrives.  An array or object is truthy and has no
    [substring]: the handler resolves the session identifier and then throws
    on [authCode.substring(0, 20)], before the [try]. *)
Definition callbackCall (keycloak : KeycloakConfig) (env : Env) (a : Arrival)
    (w : World) : Outcome :=
  match arr_code a with
  | QMissing =>
      Returned (handle env (callback keycloak
                              (mkRequest (arr_cookie a) (arr_authorization a) None)) w)
  | QString s =>
      Returned (handle env (callback keycloak
                              (mkRequest (arr_cookie a) (arr_authorization a) (Some s))) w)
  | QStructured =>
      Threw (handle env
               (callbackSession (mkRequest (arr_cookie a) (arr_authorization a) None);;
                mret tt) w)
        "authCode.substring is not a function"
  end.

(* ===================================================================== *)
(** * Notions the statements use *)
(* ===================================================================== *)

(** The outbound request of an action, if it is one. *)
Definition outbound (a : Action) : option HttpRequest :=
  match a with
  | @Did _ e _ => match e with Axios rq => Some rq | _ => None end
  end.

(** The target of an action that issues a redirect. *)
Definition redirection (a : Action) : option string :=
  match a with
  | @Did _ e _ => match e with Redirect target => Some target | _ => None end
  end.

(** Whether an action writes to the session store: the map or an object. *)
Definition writesStore (a : Action) : bool :=
  match a with
  | @Did _ e _ =>
      match e with
      | SessionsSet _ _ | SessionsDelete _ | New _ | SetUserInfo _ _ => true
      | _ => false
      end
  end.

(** The identifier [generateSessionId()] mints in world [w]. *)
Definition mintedSessionId (env : Env) (w : World) : string :=
  Js.substring 2 15 (random36 env (rng w))
  +:+ Js.substring 2 15 (random36 env (S (rng w))).

(** The session identifier the callback works with: the one of the request,
    or a minted one when that is the fallback ["default"]. *)
Definition callbackSessionId (env : Env) (w : World) (req : Request) : string :=
  if String.eqb (getSessionId req) "default" then mintedSessionId env w
  else getSessionId req.

(** Whether the store holds an authenticated session under [id]. *)
Definition active (s : Store) (id : string) : bool :=
  match session_of s id with
  | Some u => isAuthenticated u
  | None => false
  end.

(** An outbound request fails: transport error or a status outside 2xx. *)
Definition requestFails (o : HttpOutcome) : Prop :=
  match o with
  | NetworkError _ => True
  | HttpResponse status _ => status < 200 \/ 300 <= status
  end.

Definition emptyWorld : World := mkWorld (mkStore ∅ ∅) [] 0 0.

(** The worlds the server can be in: it starts with an empty store and
    handles one request after the other, each in an environment of its own. *)
Inductive reachable (keycloak : KeycloakConfig) : World -> Prop :=
| reach_start w :
    store w = mkStore ∅ ∅ -> reachable keycloak w
| reach_handle w env leg req :
    reachable keycloak w ->
    reachable keycloak (final (handle env (handler keycloak leg req) w)).

(** Every entry of the map refers to an object that is authenticated. *)
Definition authenticatedEntries (s : Store) : Prop :=
  forall id l, sessions s !! id = Some l ->
    exists u, heap s !! l = Some u /\ isAuthenticated u = true.

(** The provider behind [env] puts an access token, a non-empty string,
    into every token response it fulfils. *)
Definition issuesAccessTokens (env : Env) : Prop :=
  forall rq data,
    method rq = POST -> axios (http env rq) = Fulfilled data ->
    Js.truthy (member data "access_token") = true.

(** The worlds the server can be in when every request is handled in an
    environment that satisfies [P]. *)
Inductive reachableWith (keycloak : KeycloakConfig) (P : Env -> Prop) : World -> Prop :=
| reachWith_start w :
    store w = mkStore ∅ ∅ -> reachableWith keycloak P w
| reachWith_handle w env leg req :
    reachableWith keycloak P w -> P env ->
    reachableWith keycloak P (final (handle env (handler keycloak leg req) w)).

(** Every entry of the map refers to an object that has an access token. *)
Definition tokenedEntries (s : Store) : Prop :=
  forall id l, sessions s !! id = Some l ->
    exists u, heap s !! l = Some u /\ Js.truthy (accessToken u) = true.

(** ** Concrete inputs for the examples *)

Definition defaultConfig : KeycloakConfig := keycloakConfig (fun _ => None).

(** An identity provider that cannot be reached. *)
Definition offlineEnv : Env :=
  mkEnv (fun _ => "0.4fzyo82mvyr") Z.of_nat
    (fun _ => NetworkError "connect ECONNREFUSED") Js.encodeUrl.

(** An identity provider that answers every request with [answer]. *)
Definition answeringEnv (answer : HttpOutcome) : Env :=
  mkEnv (fun _ => "0.4fzyo82mvyr") Z.of_nat (fun _ => answer) Js.encodeUrl.

(** An identity provider answering 200 with [tokens] at the token endpoint
    and with [claims] at the userinfo endpoint. *)
Definition providerEnv (tokens claims : Body) : Env :=
  mkEnv (fun _ => "0.4fzyo82mvyr") Z.of_nat
    (fun rq => match method rq with
               | POST => HttpResponse 200 (Object tokens)
               | GET => HttpResponse 200 (Object claims)
               end) Js.encodeUrl.

(** An identity provider answering at the token endpoint only. *)
Definition tokenOnlyEnv (tokens : Body) : Env :=
  mkEnv (fun _ => "0.4fzyo82mvyr") Z.of_nat
    (fun rq => match method rq with
               | POST => HttpResponse 200 (Object tokens)
               | GET => HttpResponse 503 (Object ∅)
               end) Js.encodeUrl.

(** The configuration of a deployment whose client id is [my client]. *)
Definition spacedConfig : KeycloakConfig :=
  keycloakConfig (fun name => if String.eqb name "KEYCLOAK_CLIENT_ID"
                              then Some "my client" else None).

Definition allTokens : Body :=
  {[ "access_token" := "AT"; "id_token" := "IT"; "refresh_token" := "RT" ]}.

Definition joao : Body := {[ "preferred_username" := "joao" ]}.

(** The world after a complete login of session ["S"]. *)
Definition loggedInWorld : World :=
  final (handle (providerEnv allTokens joao)
           (callback defaultConfig (mkRequest (Some "sessionId=S") None (Some "abc")))
           emptyWorld).

(* ===================================================================== *)
(** * The log channel and the other routes *)
(* ===================================================================== *)

(** A connection to [/api/logs]: the [res] object of its request, numbered
    in the order in which the connections are accepted. *)
Abbreviation conn := nat (only parsing).

(** What the host decides: whether a write to a log client goes through or
    throws, whether a file exists, how a date prints on the console, and
    [__dirname]. *)
Record Host := mkHost {
  writable : conn -> bool;
  existsSync : string -> bool;
  toLocaleTimeString : Z -> string;
  dirname : string
}.

(** The process with its log channel: the clients connected to [/api/logs]
    (the array [logClients]), how many connections were accepted, the frames
    written to the clients (oldest first, each by the entry it carries, for
    [data: ${JSON.stringify(entry)}]) and the lines of the console. *)
Record Server := mkServer {
  world : World;
  logClients : list conn;
  accepted : nat;
  wire : list (conn * LogEntry);
  console : list string
}.

(** The table [emoji] of [addLog]. *)
Definition emoji (type : LogType) : string :=
  match type with
  | info => "ℹ️"
  | success => "✅"
  | error => "❌"
  | warning => "⚠️"
  end.

(** [logClients.forEach(client => { try { client.write(...) } catch {} })]:
    the frames that are written. *)
Definition broadcast (host : Host) (logEntry : LogEntry) (clients : list conn)
    : list (conn * LogEntry) :=
  List.map (fun client => (client, logEntry)) (List.filter (writable host) clients).

(** [`${emoji} [${timestamp}] ${message}`] *)
Definition consoleLine (host : Host) (logEntry : LogEntry) : string :=
  emoji (type logEntry) +:+ " ["
  +:+ toLocaleTimeString host (timestamp logEntry) +:+ "] " +:+ message logEntry.

(** The second half of [addLog]: the entry goes to the connected clients
    and to the console. *)
Definition publish (host : Host) (logEntry : LogEntry) (s : Server) : Server :=
  mkServer (world s) (logClients s) (accepted s)
    (wire s ++ broadcast host logEntry (logClients s))%list
    (console s ++ [consoleLine host logEntry])%list.

(** [addLog(message, type)] in full. *)
Definition addLogS (host : Host) (env : Env) (message : string) (type : LogType)
    (s : Server) : Server :=
  let w := world s in
  let date := now env (clk w) in
  publish host (mkLog date message type)
    (mkServer (mkWorld (store w) (addLog date message type (logs w)) (rng w) (S (clk w)))
       (logClients s) (accepted s) (wire s) (console s)).

(** The entry a step of a handler logs, if it is a call of [addLog]. *)
Definition loggedAt (env : Env) (st : Step) : option LogEntry :=
  match act st with
  | @Did _ e _ =>
      match e with
      | AddLog message type => Some (mkLog (now env (clk (before st))) message type)
      | _ => None
      end
  end.

(** The two pages the source sends as HTML literals. *)
Inductive Page := FallbackPage | LogoutSuccessPage.

(** What a route answers. *)
Inductive Reply :=
| Answer (r : Response)
    (** what [/login], [/callback], [/api/status] and [/logout] build *)
| File (path : string)
    (** [res.sendFile(path)] *)
| Html (status : Z) (page : Page)
    (** [res.send(...)], [res.status(200).send(...)] *)
| EventStream (status : Z) (hdrs : list (string * string))
    (** [res.writeHead(status, hdrs)], left open *)
| ErrorJson (status : Z) (err : string) (msg : string) (date : Z).
    (** [res.status(status).json({error, message, timestamp})] *)

Section Routes.

Variable keycloak : KeycloakConfig.
Variable host : Host.
Variable env : Env.

(** One of [/login], [/callback], [/api/status], [/logout]: the handler runs
    on the process state, and each of its calls of [addLog] reaches the log
    clients and the console. *)
Definition serveAuth (leg : Leg) (req : Request) (s : Server) : Server * Reply :=
  let run := handle env (handler keycloak leg req) (world s) in
  (fold_left (fun s logEntry => publish host logEntry s)
     (omap (loggedAt env) (trace run))
     (mkServer (final run) (logClients s) (accepted s) (wire s) (console s)),
   Answer (response run)).

(** [GET /] *)
Definition dashboard (s : Server) : Server * Reply :=
  let htmlPath := dirname host +:+ "/public/index.html" in
  let reply := if existsSync host htmlPath then File htmlPath
               else Html 200 FallbackPage in
  (addLogS host env "📱 Main dashboard accessed" info s, reply).

(** [GET /api/logs] *)
Definition apiLogs (s : Server) : Server * Reply :=
  let res := accepted s in
  let reply := EventStream 200
                 [("Content-Type", "text/event-stream");
                  ("Cache-Control", "no-cache");
                  ("Connection", "keep-alive");
                  ("Access-Control-Allow-Origin", "*");
                  ("Access-Control-Allow-Headers", "Cache-Control")] in
  let connected :=
    mkServer (world s) (logClients s ++ [res])%list (S (accepted s))
      (wire s ++ List.map (fun log => (res, log)) (logs (world s)))%list
      (console s) in
  (addLogS host env "📱 Log client connected" success connected, reply).

(** The handler [/api/logs] registers for the [close] event of its request. *)
Definition onClose (res : conn) (s : Server) : Server :=
  addLogS host env "📱 Log client disconnected" info
    (mkServer (world s)
       (List.filter (fun client => negb (Nat.eqb client res)) (logClients s))
       (accepted s) (wire s) (console s)).

(** [GET /logout-success] *)
Definition logoutSuccess (s : Server) : Server * Reply :=
  (addLogS host env "✅ Logout completed successfully!" success s,
   Html 200 LogoutSuccessPage).

(** The error-handling middleware. *)
Definition errorHandler (msg : string) (s : Server) : Server * Reply :=
  let s := addLogS host env ("❌ Internal server error: " +:+ msg) error s in
  let w := world s in
  (mkServer (mkWorld (store w) (logs w) (rng w) (S (clk w)))
     (logClients s) (accepted s) (wire s) (console s),
   ErrorJson 500 "Internal server error" msg (now env (clk w))).

(** The callback of [app.listen], with [PORT] as it prints. *)
Definition listening (port : string) (s : Server) : Server :=
  let s := addLogS host env ("🚀 Test server started at http://localhost:" +:+ port) success s in
  let s := addLogS host env ("👉 Access control panel: http://localhost:" +:+ port) info s in
  let s := addLogS host env ("🔑 Login endpoint: http://localhost:" +:+ port +:+ "/login") info s in
  let s := addLogS host env ("🚪 Logout endpoint: http://localhost:" +:+ port +:+ "/logout") info s in
  let s := addLogS host env ("📊 Status endpoint: http://localhost:" +:+ port +:+ "/api/status") info s in
  let s := addLogS host env ("📋 Real-time logs: http://localhost:" +:+ port +:+ "/api/logs") info s in
  mkServer (world s) (logClients s) (accepted s) (wire s)
    (console s ++
     ["
=== KEYCLOAK CONFIGURATION ===";
      "Endpoint: " +:+ endpoint keycloak;
      "Client ID: " +:+ clientId keycloak;
      "Redirect URI: " +:+ redirectUri keycloak;
      "Logout Redirect URI: " +:+ logoutRedirectUri keycloak;
      "================================
"])%list.

(** What reaches the server: a request to one of the four legs (with a
    [code] that is a string or missing), to one of the other routes, the
    close of a log connection, or an error passed to the error middleware. *)
Inductive Incoming :=
| Auth (leg : Leg) (req : Request)
| Dashboard
| ApiLogs
| Closed (res : conn)
| LogoutSuccess
| Thrown (msg : string).

Definition serve (i : Incoming) (s : Server) : Server * option Reply :=
  match i with
  | Auth leg req => let '(s', r) := serveAuth leg req s in (s', Some r)
  | Dashboard => let '(s', r) := dashboard s in (s', Some r)
  | ApiLogs => let '(s', r) := apiLogs s in (s', Some r)
  | Closed res => (onClose res s, None)
  | LogoutSuccess => let '(s', r) := logoutSuccess s in (s', Some r)
  | Thrown msg => let '(s', r) := errorHandler msg s in (s', Some r)
  end.

End Routes.

(** [PORT]: [process.env.PORT || 3000] as it prints. *)
Definition PORT (penv : string -> option string) : string :=
  Js.or_else (penv "PORT") "3000".

(** The server handles what reaches it in order, each in its own
    environment. *)
Fixpoint serveAll (keycloak : KeycloakConfig)
    (evs : list (Host * Env * Incoming)) (s : Server) : Server :=
  match evs with
  | [] => s
  | (host, env, i) :: rest =>
      serveAll keycloak rest (fst (serve keycloak host env i s))
  end.

(** The frames a client was sent, oldest first. *)
Definition framesOf (c : conn) (w : list (conn * LogEntry)) : list LogEntry :=
  List.map snd (List.filter (fun p => Nat.eqb (fst p) c) w).

(** The server before its first request. *)
Definition bootServer : Server := mkServer emptyWorld [] 0 [] [].

(** A host on which every write goes through. *)
Definition steadyHost : Host :=
  mkHost (fun _ => true) (fun _ => true) (fun _ => "12:00:00") "/srv/app".

(** The client list and the wire agree with the count of connections:
    no client is listed twice, and every client listed or written to was
    accepted. *)
Definition wellConnected (s : Server) : Prop :=
  List.NoDup (logClients s)
  /\ (forall c, In c (logClients s) -> (c < accepted s)%nat)
  /\ (forall c e, In (c, e) (wire s) -> (c < accepted s)%nat).

(** A morning of the server: two log clients connect, a user logs in and
    asks for the status, the first client leaves, the user logs out. *)
Definition morning : list (Host * Env * Incoming) :=
  [(steadyHost, offlineEnv, ApiLogs);
   (steadyHost, offlineEnv, Dashboard);
   (steadyHost, offlineEnv, ApiLogs);
   (steadyHost, providerEnv allTokens joao,
    Auth LegB (mkRequest (Some "sessionId=S") None (Some "abc")));
   (steadyHost, offlineEnv, Auth LegC (mkRequest (Some "sessionId=S") None None));
   (steadyHost, offlineEnv, Closed 0%nat);
   (steadyHost, offlineEnv, Auth LegD (mkRequest (Some "sessionId=S") None None));
   (steadyHost, offlineEnv, LogoutSuccess)].

(** ** Proof steps *)

(** Run a handler symbolically. *)
Ltac run := cbn -[Js.truthy tokenRequest userInfoRequest Js.substring
                   addLog logoutUrl errorMsg authUrl In].

(** Go through the steps of an explicit trace. *)
Ltac each_step Hin :=
  repeat (destruct Hin as [<- | Hin]; [ | ]); [ .. | destruct Hin ].

Ltac find_step :=
  apply List.Exists_exists;
  repeat first [ apply Exists_cons_hd; reflexivity | apply Exists_cons_tl ].

(* ===================================================================== *)
(** * Basic facts *)
(* ===================================================================== *)

Lemma truthy_Some (s : string) : s <> "" -> Js.truthy (Some s) = true.
Proof.
  intros Hs. simpl. destruct (String.eqb_spec s ""); [contradiction | reflexivity].
Qed.

Lemma axios_rejects (o : HttpOutcome) :
  requestFails o <-> exists e, axios o = Rejected e.
Proof.
  destruct o as [msg | status data]; simpl.
  - split; eauto.
  - destruct (Z.leb_spec 200 status), (Z.ltb_spec status 300); simpl;
      split; try (intros [? ?]; discriminate); try lia; eauto.
Qed.

Lemma generateSessionId_minted env w r :
  value (exec env generateSessionId w r) = mintedSessionId env w.
Proof. reflexivity. Qed.

Lemma session_of_active s id u :
  session_of s id = Some u -> active s id = isAuthenticated u.
Proof. unfold active. intros ->. reflexivity. Qed.

(** What [logout] sees of the store under an identifier. *)
Lemma active_lookup s id :
  active s id =
  match sessions s !! id with
  | Some l => isAuthenticated (deref s l)
  | None => false
  end.
Proof.
  unfold active, session_of, deref.
  destruct (sessions s !! id) as [l|]; simpl; [|reflexivity].
  destruct (heap s !! l); reflexivity.
Qed.

(* ===================================================================== *)
(** * Leg C: the status handler *)
(* ===================================================================== *)

Lemma status_run env req w :
  let run := handle env (status req) w in
  store (final run) = store w
  /\ Forall (fun st => writesStore (act st) = false
                       /\ store (before st) = store w) (trace run)
  /\ statusCode (response run) = 200
  /\ exists payload, sent (response run) = Json payload
       /\ p_sessionId payload = getSessionId req
       /\ p_sessions payload = size (sessions (store w)).
Proof.
  unfold handle, status.
  generalize (getSessionId req) as sid. intros sid. run.
  destruct (sessions (store w) !! sid) as [l|]; run.
  - destruct (isAuthenticated (deref (store w) l)); [destruct (userInfo _)|]; run;
      repeat split; try (repeat constructor); eauto.
  - repeat split; try (repeat constructor); eauto.
Qed.

(** C10. The status handler never changes the session store: no step of
    it writes to the store, after one status request, and so after two in a
    row, the store is what it was, and the response is a 200 with the JSON
    payload. *)
Theorem status_is_pure_read env env' req req' w :
  let run1 := handle env (status req) w in
  let run2 := handle env' (status req') (final run1) in
  store (final run1) = store w
  /\ Forall (fun st => writesStore (act st) = false
                       /\ store (before st) = store w) (trace run1)
  /\ store (final run2) = store w
  /\ statusCode (response run1) = 200
  /\ exists payload, sent (response run1) = Json payload
       /\ p_sessionId payload = getSessionId req
       /\ p_sessions payload = size (sessions (store w)).
Proof.
  intros run1 run2.
  destruct (status_run env req w) as (H1 & H2 & H3 & H4).
  destruct (status_run env' req' (final run1)) as (H1' & _).
  fold run1 in H1, H2, H3, H4. fold run2 in H1'.
  repeat split; try assumption. congruence.
Qed.

(* ===================================================================== *)
(** * Leg B: the callback handler *)
(* ===================================================================== *)

(** C3. A callback request without a [code] parameter is answered with a
    302 to [/?error=no_auth_code]; no step of the handler writes to the
    session store, which is the same afterwards and at every step. *)
Theorem callback_without_code keycloak env req w :
  query_code req = None ->
  let run := handle env (callback keycloak req) w in
  statusCode (response run) = 302
  /\ sent (response run) = Redirected "/?error=no_auth_code"
  /\ store (final run) = store w
  /\ Forall (fun st => writesStore (act st) = false
                       /\ store (before st) = store w) (trace run).
Proof.
  intros Hcode. unfold handle, callback, callbackSession, exchangeFailed. rewrite Hcode.
  generalize (getSessionId req) as sid. intros sid.
  destruct (String.eqb sid "default"); run;
    repeat split; repeat constructor.
Qed.

(** An empty [code] parameter is falsy and is handled as a missing one. *)
Lemma callback_empty_code keycloak env req w :
  query_code req = Some "" ->
  let run := handle env (callback keycloak req) w in
  sent (response run) = Redirected "/?error=no_auth_code"
  /\ store (final run) = store w.
Proof.
  intros Hcode. unfold handle, callback, callbackSession, exchangeFailed. rewrite Hcode.
  generalize (getSessionId req) as sid. intros sid.
  destruct (String.eqb sid "default"); run; split; reflexivity.
Qed.

(** C4. When the token exchange fails, by a transport error or a status
    outside 2xx, the callback is answered with a 302 to
    [/?error=auth_failed]; no step of the handler writes to the session
    store, which is the same afterwards and at every step. *)
Theorem callback_exchange_failure keycloak env req w code :
  query_code req = Some code ->
  code <> "" ->
  requestFails (http env (tokenRequest keycloak code)) ->
  let run := handle env (callback keycloak req) w in
  statusCode (response run) = 302
  /\ sent (response run) = Redirected "/?error=auth_failed"
  /\ store (final run) = store w
  /\ Forall (fun st => writesStore (act st) = false
                       /\ store (before st) = store w) (trace run).
Proof.
  intros Hcode Hne Hfail.
  apply axios_rejects in Hfail as [e He].
  unfold handle, callback, callbackSession, exchangeFailed. rewrite Hcode.
  generalize (getSessionId req) as sid. intros sid.
  rewrite (truthy_Some code Hne).
  destruct (String.eqb sid "default"); run; rewrite He; run;
    repeat split; repeat constructor.
Qed.

Lemma session_of_stored (id : string) (l : loc) (u : UserSession)
    (m : gmap string loc) (h : gmap loc UserSession) :
  session_of (mkStore (<[id := l]> m) (<[l := u]> h)) id = Some u.
Proof.
  unfold session_of. simpl. rewrite lookup_insert_eq. simpl.
  apply lookup_insert_eq.
Qed.

Lemma session_of_assigned (id : string) (l : loc) (u : UserSession) (v : Data)
    (m : gmap string loc) (h : gmap loc UserSession) :
  session_of (mkStore (<[id := l]> m) (alter (assignUserInfo v) l (<[l := u]> h))) id
  = Some (assignUserInfo v u).
Proof.
  unfold session_of. simpl. rewrite lookup_insert_eq. simpl.
  rewrite lookup_alter_eq, lookup_insert_eq. reflexivity.
Qed.

(** C1, as the code has it. A callback request with a code whose token
    exchange, the POST of the code to the token endpoint of the provider, is
    fulfilled with a body that is not JSON [null]: the userinfo fetch, a GET
    of the userinfo endpoint with the access token as bearer, is attempted,
    and whenever it is, the session built from the [id_token],
    [access_token] and [refresh_token] members of the token response,
    authenticated and without [userInfo], is already stored under the
    callback's session identifier; the response is a 302 whose [Location]
    is [/?auth=success] as Express encodes it and whose [Set-Cookie] header
    carries that identifier; when the userinfo fetch is fulfilled with a
    claims object the stored session has it as [userInfo]; and in every case
    the session stored in the end has those three tokens and is
    authenticated. *)
Theorem callback_success keycloak env req w code data :
  query_code req = Some code ->
  code <> "" ->
  axios (http env
           (mkHttp POST (endpoint keycloak +:+ "/protocol/openid-connect/token")
              [("Content-Type", "application/x-www-form-urlencoded")]
              [("grant_type", "authorization_code");
               ("client_id", clientId keycloak);
               ("client_secret", clientSecret keycloak);
               ("code", code);
               ("redirect_uri", redirectUri keycloak)]))
  = Fulfilled data ->
  data <> Null ->
  let sid := callbackSessionId env w req in
  let created := mkSession (member data "id_token") (member data "access_token")
                   (member data "refresh_token") None true in
  let fetch := mkHttp GET (endpoint keycloak +:+ "/protocol/openid-connect/userinfo")
                 [("Authorization", "Bearer " +:+ Js.template (member data "access_token"))]
                 [] in
  let run := handle env (callback keycloak req) w in
  (exists st, In st (trace run) /\ outbound (act st) = Some fetch)
  /\ (forall st, In st (trace run) -> outbound (act st) = Some fetch ->
        session_of (store (before st)) sid = Some created)
  /\ statusCode (response run) = 302
  /\ sent (response run) = Redirected "/?auth=success"
  /\ headers (response run) !! "Location" = Some (encodeUrl env "/?auth=success")
  /\ headers (response run) !! "Set-Cookie"
     = Some ("sessionId=" +:+ sid +:+ "; HttpOnly; Path=/; Max-Age=86400")
  /\ (forall claims : Body, axios (http env fetch) = Fulfilled (Object claims) ->
        session_of (store (final run)) sid
        = Some (mkSession (member data "id_token") (member data "access_token")
                  (member data "refresh_token") (Some claims) true))
  /\ (exists u, session_of (store (final run)) sid = Some u
                /\ idToken u = member data "id_token"
                /\ accessToken u = member data "access_token"
                /\ refreshToken u = member data "refresh_token"
                /\ isAuthenticated u = true).
Proof.
  intros Hcode Hne Htok Hdata.
  change (mkHttp POST _ _ _) with (tokenRequest keycloak code) in Htok.
  change (mkHttp GET _ _ _) with (userInfoRequest keycloak (member data "access_token")).
  unfold callbackSessionId, handle, callback, callbackSession, exchangeFailed.
  rewrite Hcode.
  generalize (getSessionId req) as sid0. intros sid0.
  rewrite (truthy_Some code Hne).
  destruct (String.eqb sid0 "default"); run; rewrite Htok; run;
    (destruct data as [| | members]; [contradiction | |]); run;
    (destruct (axios (http env (userInfoRequest keycloak _)))
       as [[| | claims] | e] eqn:Hui); run.
  all: split; [find_step |].
  all: split; [intros st Hin Hout; each_step Hin; try discriminate Hout;
               try apply session_of_stored |].
  all: do 3 (split; [reflexivity |]).
  all: split; [rewrite lookup_insert_ne by discriminate; apply lookup_insert_eq |].
  all: split; [intros claims' Heq; try discriminate Heq;
               injection Heq as <-; apply session_of_assigned |].
  all: eexists;
    (split; [first [apply session_of_assigned | apply session_of_stored]
            | repeat split]).
Qed.

(** C1 as stated fails: when the token endpoint answers 200 with the body
    [null], the call succeeds, and the callback redirects to
    [/?error=auth_failed], stores nothing and sets no cookie. *)
Lemma callback_null_token_body :
  let env := answeringEnv (HttpResponse 200 Null) in
  let req := mkRequest (Some "sessionId=S") None (Some "abc") in
  let run := handle env (callback defaultConfig req) emptyWorld in
  axios (http env (tokenRequest defaultConfig "abc")) = Fulfilled Null
  /\ sent (response run) = Redirected "/?error=auth_failed"
  /\ headers (response run) !! "Set-Cookie" = None
  /\ store (final run) = store emptyWorld
  /\ session_of (store (final run)) "S" = None.
Proof. vm_compute. repeat split. Qed.

(** C5. A callback request whose token exchange succeeds and whose userinfo
    fetch fails (the fetch is made when the body of the token response is
    not [null]): the session stored under the callback's session identifier
    is authenticated and has no [userInfo], and the response still is a 302
    to [/?auth=success] with the session cookie. *)
Theorem callback_userinfo_failure keycloak env req w code data :
  query_code req = Some code ->
  code <> "" ->
  axios (http env (tokenRequest keycloak code)) = Fulfilled data ->
  data <> Null ->
  requestFails (http env (userInfoRequest keycloak (member data "access_token"))) ->
  let sid := callbackSessionId env w req in
  let run := handle env (callback keycloak req) w in
  (exists u, session_of (store (final run)) sid = Some u
             /\ isAuthenticated u = true /\ userInfo u = None)
  /\ statusCode (response run) = 302
  /\ sent (response run) = Redirected "/?auth=success"
  /\ headers (response run) !! "Set-Cookie"
     = Some ("sessionId=" +:+ sid +:+ "; HttpOnly; Path=/; Max-Age=86400").
Proof.
  intros Hcode Hne Htok Hdata Hfail.
  apply axios_rejects in Hfail as [e He].
  unfold callbackSessionId, handle, callback, callbackSession, exchangeFailed.
  rewrite Hcode.
  generalize (getSessionId req) as sid0. intros sid0.
  rewrite (truthy_Some code Hne).
  destruct (String.eqb sid0 "default"); run; rewrite Htok; run;
    (destruct data as [| | members]; [contradiction | |]); run;
    cbn [member] in He; rewrite He; run.
  all: split; [eexists; split; [apply session_of_stored | split; reflexivity] |].
  all: repeat split; try reflexivity.
  all: rewrite lookup_insert_ne by discriminate; apply lookup_insert_eq.
Qed.

(* ===================================================================== *)
(** * Leg D: the logout handler *)
(* ===================================================================== *)

Lemma append_empty_r (s : string) : s +:+ "" = s.
Proof.
  induction s as [|c s IH]; [reflexivity |].
  change (String c (s +:+ "") = String c s). now rewrite IH.
Qed.

Lemma append_length (a b : string) :
  String.length (a +:+ b) = (String.length a + String.length b)%nat.
Proof.
  induction a as [|c a IH]; [reflexivity |].
  change (S (String.length (a +:+ b)) = S (String.length a + String.length b)).
  now rewrite IH.
Qed.

(** The logout URL is the base URL, followed by the hint exactly when the
    id token of the session is a non-empty string. *)
Lemma logoutUrl_hint keycloak u :
  (forall t, idToken u = Some t -> t <> "" ->
     logoutUrl keycloak u = logoutBase keycloak +:+ "&id_token_hint=" +:+ t)
  /\ (Js.truthy (idToken u) = false -> logoutUrl keycloak u = logoutBase keycloak)
  /\ ((exists t, logoutUrl keycloak u = logoutBase keycloak +:+ "&id_token_hint=" +:+ t)
      <-> Js.truthy (idToken u) = true).
Proof.
  unfold logoutUrl.
  split; [| split].
  - intros t Ht Hne. rewrite Ht, (truthy_Some t Hne). reflexivity.
  - intros ->. apply append_empty_r.
  - destruct (Js.truthy (idToken u)) eqn:Htr.
    + split; [reflexivity | intros _; eexists; reflexivity].
    + split; [| discriminate].
      intros [t Ht]. rewrite append_empty_r in Ht.
      apply (f_equal String.length) in Ht.
      rewrite append_length in Ht. simpl in Ht. lia.
Qed.

(** The two ways a logout request runs. *)
Lemma logout_run_active keycloak env req w :
  active (store w) (getSessionId req) = true ->
  exists l, sessions (store w) !! getSessionId req = Some l /\
  let u := deref (store w) l in
  let run := handle env (logout keycloak req) w in
  store (final run)
    = mkStore (delete (getSessionId req) (sessions (store w))) (heap (store w))
  /\ response run
     = mkResponse 302
         (<["Location" := encodeUrl env (logoutUrl keycloak u)]>
            (<["Set-Cookie" := "sessionId=; HttpOnly; Path=/; Max-Age=0"]> ∅))
         (Redirected (logoutUrl keycloak u))
  /\ (exists st, In st (trace run)
                 /\ redirection (act st) = Some (logoutUrl keycloak u))
  /\ (forall st target, In st (trace run) -> redirection (act st) = Some target ->
        target = logoutUrl keycloak u
        /\ sessions (store (before st)) !! getSessionId req = None)
  /\ Forall (fun st => outbound (act st) = None) (trace run).
Proof.
  rewrite active_lookup. unfold handle, logout.
  generalize (getSessionId req) as sid. intros sid Hact.
  destruct (sessions (store w) !! sid) as [l|] eqn:Hl; [|discriminate].
  exists l. split; [reflexivity|]. run. rewrite Hl. run. rewrite Hact. run.
  split; [reflexivity|]. split; [reflexivity|].
  split; [find_step|].
  split; [| repeat constructor].
  intros st target Hin Hred. each_step Hin; try discriminate Hred.
  simpl in Hred. injection Hred as <-.
  split; [reflexivity |]. simpl. apply lookup_delete_eq.
Qed.

Lemma logout_run_inactive keycloak env req w :
  active (store w) (getSessionId req) = false ->
  let run := handle env (logout keycloak req) w in
  store (final run) = store w
  /\ response run
     = mkResponse 302 (<["Location" := encodeUrl env "/logout-success"]> ∅)
         (Redirected "/logout-success")
  /\ Forall (fun st => writesStore (act st) = false
                       /\ store (before st) = store w) (trace run)
  /\ Forall (fun st => outbound (act st) = None) (trace run).
Proof.
  rewrite active_lookup. unfold handle, logout.
  generalize (getSessionId req) as sid. intros sid Hact.
  destruct (sessions (store w) !! sid) as [l|] eqn:Hl; run; rewrite Hl; run.
  - rewrite Hact. run. repeat split; repeat constructor.
  - repeat split; repeat constructor.
Qed.

(** The logout URL, written out. *)
Lemma logoutUrl_spelled keycloak u :
  let base :=
    endpoint keycloak +:+ "/protocol/openid-connect/logout?client_id="
    +:+ clientId keycloak +:+ "&post_logout_redirect_uri="
    +:+ Js.encodeURIComponent (logoutRedirectUri keycloak) in
  logoutUrl keycloak u
  = match idToken u with
    | Some t => if String.eqb t "" then base else base +:+ "&id_token_hint=" +:+ t
    | None => base
    end.
Proof.
  unfold logoutUrl, logoutBase.
  destruct (idToken u) as [[|c t]|]; cbn [Js.truthy Js.template String.eqb].
  - rewrite append_empty_r. reflexivity.
  - reflexivity.
  - rewrite append_empty_r. reflexivity.
Qed.

(** C6. A logout request whose session identifier maps to a stored,
    authenticated session: the entry is deleted (a later lookup finds
    nothing); the response sets the [sessionId] cookie to the empty value
    with [Max-Age=0] and is a 302 to the logout URL of the provider,
    [<endpoint>/protocol/openid-connect/logout?client_id=<clientId>&post_logout_redirect_uri=<logoutRedirectUri, component-encoded>],
    followed by [&id_token_hint=<idToken>] when the session's id token is
    present, that is a non-empty string (the source's test
    [userSession.idToken ? ... : '']), and by nothing when it is not; the
    [Location] header is that URL as Express encodes it; and whenever the
    redirect is issued the entry is already gone. *)
Theorem logout_authenticated keycloak env req w u :
  session_of (store w) (getSessionId req) = Some u ->
  isAuthenticated u = true ->
  let sid := getSessionId req in
  let run := handle env (logout keycloak req) w in
  let base :=
    endpoint keycloak +:+ "/protocol/openid-connect/logout?client_id="
    +:+ clientId keycloak +:+ "&post_logout_redirect_uri="
    +:+ Js.encodeURIComponent (logoutRedirectUri keycloak) in
  let target :=
    match idToken u with
    | Some t => if String.eqb t "" then base else base +:+ "&id_token_hint=" +:+ t
    | None => base
    end in
  sessions (store (final run)) !! sid = None
  /\ session_of (store (final run)) sid = None
  /\ headers (response run) !! "Set-Cookie"
     = Some "sessionId=; HttpOnly; Path=/; Max-Age=0"
  /\ statusCode (response run) = 302
  /\ sent (response run) = Redirected target
  /\ headers (response run) !! "Location" = Some (encodeUrl env target)
  /\ ((exists t, target = base +:+ "&id_token_hint=" +:+ t)
      <-> exists t, idToken u = Some t /\ t <> "")
  /\ (exists st, In st (trace run) /\ redirection (act st) = Some target)
  /\ (forall st target', In st (trace run) -> redirection (act st) = Some target' ->
        target' = target /\ sessions (store (before st)) !! sid = None).
Proof.
  intros Hu Hauth. cbv zeta.
  assert (Hact : active (store w) (getSessionId req) = true).
  { rewrite (session_of_active _ _ _ Hu). exact Hauth. }
  destruct (logout_run_active keycloak env req w Hact) as (l & Hl & Hrun).
  assert (Hd : deref (store w) l = u).
  { unfold session_of in Hu. rewrite Hl in Hu.
    simpl in Hu. unfold deref. rewrite Hu. reflexivity. }
  rewrite Hd in Hrun. cbv zeta in Hrun.
  destruct Hrun as (Hst & Hres & Hex & Hall & _).
  pose proof (logoutUrl_spelled keycloak u) as Hurl. cbv zeta in Hurl.
  rewrite <- Hurl.
  assert (Hgone : sessions (store (final (handle env (logout keycloak req) w)))
                    !! getSessionId req = None).
  { rewrite Hst. simpl. apply lookup_delete_eq. }
  split; [exact Hgone|].
  split; [unfold session_of; rewrite Hgone; reflexivity|].
  rewrite Hres. simpl.
  split; [rewrite lookup_insert_ne by discriminate; apply lookup_insert_eq|].
  split; [reflexivity|]. split; [reflexivity|].
  split; [apply lookup_insert_eq|].
  split.
  { destruct (logoutUrl_hint keycloak u) as (_ & _ & Hiff).
    etransitivity; [exact Hiff |].
    destruct (idToken u) as [t|]; [destruct (String.eqb_spec t "") as [Heq | Hne] |];
      simpl.
    - split; [| intros (t' & [= <-] & Hne); contradiction].
      rewrite Heq. discriminate.
    - split; [intros _; exists t; split; [reflexivity | exact Hne] |].
      intros _. destruct (String.eqb_spec t ""); [contradiction | reflexivity].
    - split; [discriminate | intros (t' & Ht' & _); discriminate Ht']. }
  split; [exact Hex|].
  intros st target' Hin Hred. exact (Hall st target' Hin Hred).
Qed.

(** C8. A logout request whose session identifier has no stored entry, or
    an entry that is not authenticated, is answered with a 302 to
    [/logout-success]; the handler makes no outbound call, no step of it
    writes to the session store, and the store is the same afterwards and
    at every step. *)
Theorem logout_without_session keycloak env req w :
  (session_of (store w) (getSessionId req) = None
   \/ exists u, session_of (store w) (getSessionId req) = Some u
                /\ isAuthenticated u = false) ->
  let run := handle env (logout keycloak req) w in
  statusCode (response run) = 302
  /\ sent (response run) = Redirected "/logout-success"
  /\ Forall (fun st => outbound (act st) = None) (trace run)
  /\ store (final run) = store w
  /\ Forall (fun st => writesStore (act st) = false
                       /\ store (before st) = store w) (trace run).
Proof.
  intros Hno run.
  assert (Hact : active (store w) (getSessionId req) = false).
  { unfold active. destruct Hno as [-> | (u & -> & Hu)]; [reflexivity | exact Hu]. }
  destruct (logout_run_inactive keycloak env req w Hact) as (Hst & Hres & Hfr & Hout).
  fold run in Hst, Hres, Hfr, Hout. rewrite Hres. simpl.
  repeat split; assumption.
Qed.

(** C9, as the code has it. The logout response clears the [sessionId]
    cookie (empty value, [Max-Age=0]) exactly when the request's session
    identifier maps to a stored, authenticated session; otherwise it sets
    no cookie at all. *)
Theorem logout_cookie keycloak env req w :
  let run := handle env (logout keycloak req) w in
  headers (response run) !! "Set-Cookie"
  = if active (store w) (getSessionId req)
    then Some "sessionId=; HttpOnly; Path=/; Max-Age=0"
    else None.
Proof.
  intros run.
  destruct (active (store w) (getSessionId req)) eqn:Hact.
  - destruct (logout_run_active keycloak env req w Hact) as (l & _ & _ & Hres & _).
    fold run in Hres. rewrite Hres. simpl.
    rewrite lookup_insert_ne by discriminate. apply lookup_insert_eq.
  - destruct (logout_run_inactive keycloak env req w Hact) as (_ & Hres & _).
    fold run in Hres. rewrite Hres. simpl.
    rewrite lookup_insert_ne by discriminate. apply lookup_empty.
Qed.

(** C9 as stated fails: a logout request without a session is answered
    without any [Set-Cookie] header. *)
Lemma inactive_logout_sets_no_cookie :
  let run := handle offlineEnv (logout defaultConfig (mkRequest None None None))
               emptyWorld in
  sent (response run) = Redirected "/logout-success"
  /\ headers (response run) !! "Set-Cookie" = None
  /\ headers (response run) !! "Set-Cookie"
     <> Some "sessionId=; HttpOnly; Path=/; Max-Age=0".
Proof. vm_compute. repeat split; discriminate. Qed.

(* ===================================================================== *)
(** * The session store across requests *)
(* ===================================================================== *)

Lemma login_run keycloak env req w :
  let run := handle env (login keycloak req) w in
  store (final run) = store w
  /\ response run
     = mkResponse 302 (<["Location" := encodeUrl env (authUrl keycloak)]> ∅)
         (Redirected (authUrl keycloak)).
Proof. split; reflexivity. Qed.

(** The store after a callback: untouched, or with one new object, which is
    authenticated, stored under one identifier. *)
Lemma callback_final_store keycloak env req w :
  let run := handle env (callback keycloak req) w in
  store (final run) = store w
  \/ exists id u,
       isAuthenticated u = true
       /\ store (final run)
          = mkStore (<[id := fresh (dom (heap (store w)))]> (sessions (store w)))
              (<[fresh (dom (heap (store w))) := u]> (heap (store w))).
Proof.
  unfold handle, callback, callbackSession, exchangeFailed.
  generalize (getSessionId req) as sid0. intros sid0.
  destruct (Js.truthy (query_code req)) eqn:Hcode; simpl negb; cbv iota.
  - destruct (String.eqb sid0 "default"); run;
      (destruct (axios (http env (tokenRequest keycloak (Js.template (query_code req)))))
         as [data | e]; run; [| left; reflexivity]);
      (destruct data as [| | members]; run; [left; reflexivity | |]);
      (destruct (axios (http env (userInfoRequest keycloak _)))
         as [[| | claims] | e]; run);
      right; eexists; eexists; (split; [| try rewrite alter_insert_eq; reflexivity]);
      reflexivity.
  - destruct (String.eqb sid0 "default"); run; left; reflexivity.
Qed.

Lemma authenticatedEntries_stored (s : Store) (id : string) (u : UserSession) :
  authenticatedEntries s ->
  isAuthenticated u = true ->
  authenticatedEntries
    (mkStore (<[id := fresh (dom (heap s))]> (sessions s))
       (<[fresh (dom (heap s)) := u]> (heap s))).
Proof.
  intros Hinv Hu id' l'. simpl. intros Hl'.
  apply lookup_insert_Some in Hl' as [[_ <-] | [_ Hl']].
  - exists u. split; [apply lookup_insert_eq | exact Hu].
  - destruct (Hinv id' l' Hl') as (u' & Hu' & Hauth).
    exists u'. split; [| exact Hauth].
    rewrite lookup_insert_ne; [exact Hu'|].
    intros <-. apply (is_fresh (dom (heap s))).
    apply elem_of_dom. eauto.
Qed.

Lemma authenticatedEntries_deleted (s : Store) (id : string) :
  authenticatedEntries s ->
  authenticatedEntries (mkStore (delete id (sessions s)) (heap s)).
Proof.
  intros Hinv id' l'. simpl. intros Hl'.
  apply lookup_delete_Some in Hl' as [_ Hl']. exact (Hinv id' l' Hl').
Qed.

(** Each leg keeps every entry of the store authenticated. *)
Lemma handler_keeps_entries_authenticated keycloak env leg req w :
  authenticatedEntries (store w) ->
  authenticatedEntries (store (final (handle env (handler keycloak leg req) w))).
Proof.
  intros Hinv. destruct leg; simpl handler.
  - destruct (login_run keycloak env req w) as [-> _]. exact Hinv.
  - destruct (callback_final_store keycloak env req w) as [-> | (id & u & Hu & ->)];
      [exact Hinv | now apply authenticatedEntries_stored].
  - destruct (status_run env req w) as [-> _]. exact Hinv.
  - destruct (active (store w) (getSessionId req)) eqn:Hact.
    + destruct (logout_run_active keycloak env req w Hact) as (l & _ & -> & _).
      now apply authenticatedEntries_deleted.
    + destruct (logout_run_inactive keycloak env req w Hact) as (-> & _). exact Hinv.
Qed.

Lemma reachable_entries_authenticated keycloak w :
  reachable keycloak w -> authenticatedEntries (store w).
Proof.
  induction 1 as [w Hempty | w env leg req _ IH].
  - rewrite Hempty. intros id l Hl. simpl in Hl. rewrite lookup_empty in Hl.
    discriminate.
  - now apply handler_keeps_entries_authenticated.
Qed.

(** The session a callback stores has the access token of the token
    response. *)
Lemma callback_stored_session keycloak env req w :
  let run := handle env (callback keycloak req) w in
  store (final run) = store w
  \/ exists id u rq data,
       method rq = POST
       /\ axios (http env rq) = Fulfilled data
       /\ accessToken u = member data "access_token"
       /\ store (final run)
          = mkStore (<[id := fresh (dom (heap (store w)))]> (sessions (store w)))
              (<[fresh (dom (heap (store w))) := u]> (heap (store w))).
Proof.
  unfold handle, callback, callbackSession, exchangeFailed.
  generalize (getSessionId req) as sid0. intros sid0.
  destruct (Js.truthy (query_code req)) eqn:Hcode; simpl negb; cbv iota.
  - destruct (String.eqb sid0 "default"); run;
      (destruct (axios (http env (tokenRequest keycloak (Js.template (query_code req)))))
         as [data | e] eqn:Htok; run; [| left; reflexivity]);
      (destruct data as [| | members]; run; [left; reflexivity | |]);
      (destruct (axios (http env (userInfoRequest keycloak _)))
         as [[| | claims] | e]; run);
      right; eexists; eexists; eexists; eexists;
      (split; [| split; [exact Htok |
                split; [| try rewrite alter_insert_eq; reflexivity]]]);
      reflexivity.
  - destruct (String.eqb sid0 "default"); run; left; reflexivity.
Qed.

Lemma tokenedEntries_stored (s : Store) (id : string) (u : UserSession) :
  tokenedEntries s ->
  Js.truthy (accessToken u) = true ->
  tokenedEntries
    (mkStore (<[id := fresh (dom (heap s))]> (sessions s))
       (<[fresh (dom (heap s)) := u]> (heap s))).
Proof.
  intros Hinv Hu id' l'. simpl. intros Hl'.
  apply lookup_insert_Some in Hl' as [[_ <-] | [_ Hl']].
  - exists u. split; [apply lookup_insert_eq | exact Hu].
  - destruct (Hinv id' l' Hl') as (u' & Hu' & Htok).
    exists u'. split; [| exact Htok].
    rewrite lookup_insert_ne; [exact Hu'|].
    intros <-. apply (is_fresh (dom (heap s))).
    apply elem_of_dom. eauto.
Qed.

(** Each leg keeps every entry of the store with an access token, when the
    provider issues one with every token response. *)
Lemma handler_keeps_entries_tokened keycloak env leg req w :
  issuesAccessTokens env ->
  tokenedEntries (store w) ->
  tokenedEntries (store (final (handle env (handler keycloak leg req) w))).
Proof.
  intros Henv Hinv. destruct leg; simpl handler.
  - destruct (login_run keycloak env req w) as [-> _]. exact Hinv.
  - destruct (callback_stored_session keycloak env req w)
      as [-> | (id & u & rq & data & Hpost & Htok & Hu & ->)]; [exact Hinv |].
    apply tokenedEntries_stored; [exact Hinv |].
    rewrite Hu. exact (Henv rq data Hpost Htok).
  - destruct (status_run env req w) as [-> _]. exact Hinv.
  - destruct (active (store w) (getSessionId req)) eqn:Hact.
    + destruct (logout_run_active keycloak env req w Hact) as (l & _ & -> & _).
      intros id' l'. simpl. intros Hl'.
      apply lookup_delete_Some in Hl' as [_ Hl']. exact (Hinv id' l' Hl').
    + destruct (logout_run_inactive keycloak env req w Hact) as (-> & _). exact Hinv.
Qed.

Lemma reachable_entries_tokened keycloak w :
  reachableWith keycloak issuesAccessTokens w -> tokenedEntries (store w).
Proof.
  induction 1 as [w Hempty | w env leg req _ IH Henv].
  - rewrite Hempty. intros id l Hl. simpl in Hl. rewrite lookup_empty in Hl.
    discriminate.
  - now apply handler_keeps_entries_tokened.
Qed.

(** C2, as the code has it. In every world the server can reach, by any
    sequence of login, callback, status and logout requests from an empty
    store, every entry of the session store refers to a session with
    [isAuthenticated = true]: a session that is not authenticated is never
    stored.  When, in addition, the provider put an access token into every
    token response it fulfilled, every stored session has an access token.
    (The id token of a stored session is the [id_token] member of the token
    response, if it had one.) *)
Theorem stored_sessions_are_authenticated keycloak w :
  reachable keycloak w ->
  forall id,
    (forall l, sessions (store w) !! id = Some l ->
       exists u, session_of (store w) id = Some u /\ isAuthenticated u = true)
    /\ (forall u, session_of (store w) id = Some u -> isAuthenticated u = true)
    /\ (reachableWith keycloak issuesAccessTokens w ->
        forall u, session_of (store w) id = Some u ->
          exists t, accessToken u = Some t /\ t <> "").
Proof.
  intros Hreach id.
  pose proof (reachable_entries_authenticated keycloak w Hreach) as Hinv.
  split; [| split].
  - intros l Hl. destruct (Hinv id l Hl) as (u & Hu & Hauth).
    exists u. split; [| exact Hauth].
    unfold session_of. rewrite Hl. exact Hu.
  - intros u Hu. unfold session_of in Hu.
    destruct (sessions (store w) !! id) as [l|] eqn:Hl; [| discriminate].
    destruct (Hinv id l Hl) as (u' & Hu' & Hauth).
    simpl in Hu. congruence.
  - intros Hwith u Hu. unfold session_of in Hu.
    destruct (sessions (store w) !! id) as [l|] eqn:Hl; [| discriminate].
    destruct (reachable_entries_tokened keycloak w Hwith id l Hl) as (u' & Hu' & Htok).
    simpl in Hu. assert (u' = u) as -> by congruence.
    destruct (accessToken u) as [t|]; [| discriminate Htok].
    exists t. split; [reflexivity |]. intros ->. discriminate Htok.
Qed.

(** C2 as stated fails: after a callback whose token response has an
    [access_token] and no [id_token] member, the store holds a session
    without an id token. *)
Lemma stored_session_without_idToken :
  let env := providerEnv {[ "access_token" := "AT" ]} joao in
  let w := final (handle env
                    (callback defaultConfig
                       (mkRequest (Some "sessionId=S") None (Some "abc")))
                    emptyWorld) in
  reachable defaultConfig w
  /\ issuesAccessTokens env
  /\ exists u, session_of (store w) "S" = Some u
               /\ isAuthenticated u = true
               /\ idToken u = None
               /\ accessToken u = Some "AT".
Proof.
  split; [| split].
  - apply (reach_handle defaultConfig emptyWorld _ LegB).
    apply reach_start. reflexivity.
  - intros rq data Hpost Htok. unfold providerEnv in Htok. simpl in Htok.
    rewrite Hpost in Htok. simpl in Htok. injection Htok as <-. reflexivity.
  - eexists. split; [vm_compute; reflexivity | repeat split].
Qed.

(* ===================================================================== *)
(** * Resolution of the session identifier *)
(* ===================================================================== *)

Lemma split_without_separator (sep : ascii) (s : string) :
  (forall c, In c (list_ascii_of_string s) -> c <> sep) ->
  Js.split sep s = [s].
Proof.
  induction s as [|c s IH]; intros Hno; [reflexivity|].
  simpl. destruct (Ascii.eqb_spec c sep) as [-> | _].
  - exfalso. apply (Hno sep); [left; reflexivity | reflexivity].
  - rewrite IH; [reflexivity|]. intros d Hd. apply Hno. right. exact Hd.
Qed.

(** Of a cookie [sessionId=v] the source returns what comes before the
    first [=] of [v]. *)
Lemma sessionCookie_value (v : string) :
  nth 1 (Js.split "="%char ("sessionId=" +:+ v)) "" = nth 0 (Js.split "="%char v) "".
Proof. reflexivity. Qed.

Lemma sessionCookie_value_verbatim (v : string) :
  (forall c, In c (list_ascii_of_string v) -> c <> "="%char) ->
  nth 1 (Js.split "="%char ("sessionId=" +:+ v)) "" = v.
Proof.
  intros Hno. rewrite sessionCookie_value, split_without_separator by exact Hno.
  reflexivity.
Qed.



(** With a [sessionId=v] cookie the identifier is [v] up to its first [=],
    whatever the [Authorization] header. *)
Lemma getSessionId_cookie (req : Request) (h v : string) :
  cookie req = Some h ->
  findSessionCookie h = Some ("sessionId=" +:+ v) ->
  getSessionId req = nth 0 (Js.split "="%char v) "".
Proof.
  unfold getSessionId. intros -> Hfind.
  destruct (String.eqb_spec h "") as [-> | _]; [discriminate Hfind|].
  rewrite Hfind. apply sessionCookie_value.
Qed.

Lemma getSessionId_cookie_verbatim (req : Request) (h v : string) :
  cookie req = Some h ->
  findSessionCookie h = Some ("sessionId=" +:+ v) ->
  (forall c, In c (list_ascii_of_string v) -> c <> "="%char) ->
  getSessionId req = v.
Proof.
  intros Hc Hfind Hno. rewrite (getSessionId_cookie req h v Hc Hfind).
  rewrite split_without_separator by exact Hno. reflexivity.
Qed.

(** Without a [sessionId] cookie the identifier is the [Authorization]
    header, unless that is missing or empty, and then ["default"]. *)
Lemma getSessionId_without_cookie (req : Request) :
  cookie req = None \/ (exists h, cookie req = Some h /\ findSessionCookie h = None) ->
  getSessionId req = Js.or_else (authorization req) "default".
Proof.
  unfold getSessionId. intros [-> | (h & -> & ->)]; [reflexivity|].
  destruct (String.eqb h ""); reflexivity.
Qed.

Lemma getSessionId_fallback (req : Request) :
  cookie req = None -> authorization req = None -> getSessionId req = "default".
Proof.
  intros Hc Ha. rewrite getSessionId_without_cookie by (left; exact Hc).
  rewrite Ha. reflexivity.
Qed.

Lemma getSessionId_authorization (req : Request) (a : string) :
  cookie req = None -> authorization req = Some a -> a <> "" ->
  getSessionId req = a.
Proof.
  intros Hc Ha Hne. rewrite getSessionId_without_cookie by (left; exact Hc).
  rewrite Ha. simpl. destruct (String.eqb_spec a ""); [contradiction | reflexivity].
Qed.

(** C7. On the cookie header [sessionId=a=b], whose [sessionId] cookie has
    the value [a=b], the source resolves the identifier [a]: the value is
    cut at its first [=] and not returned verbatim. *)
Theorem getSessionId_cuts_cookie_value :
  let req := mkRequest (Some "sessionId=a=b") None None in
  findSessionCookie "sessionId=a=b" = Some ("sessionId=" +:+ "a=b")
  /\ getSessionId req = "a"
  /\ getSessionId req <> "a=b".
Proof. vm_compute. repeat split; discriminate. Qed.

(** The cookie the callback itself sets is then not read back: a session
    stored under an identifier with [=] in it is not found again through
    the cookie that carries the identifier. *)
Lemma callback_cookie_not_read_back :
  let id := "Basic dXNlcjpwdw==" in
  let run := handle (providerEnv allTokens joao)
               (callback defaultConfig (mkRequest None (Some id) (Some "abc")))
               emptyWorld in
  let next := mkRequest (Some ("sessionId=" +:+ id)) None None in
  headers (response run) !! "Set-Cookie"
    = Some ("sessionId=" +:+ id +:+ "; HttpOnly; Path=/; Max-Age=86400")
  /\ active (store (final run)) id = true
  /\ getSessionId next = "Basic dXNlcjpwdw"
  /\ active (store (final run)) (getSessionId next) = false.
Proof. vm_compute. repeat split. Qed.

(* ===================================================================== *)
(** * The scenarios of the specification, run *)
(* ===================================================================== *)

(** Scenario 1: [GET /callback?code=abc], the token endpoint returns the
    three tokens and the userinfo endpoint returns [joao]. *)
Lemma callback_success_witness :
  let env := providerEnv allTokens joao in
  let req := mkRequest (Some "sessionId=S") None (Some "abc") in
  let run := handle env (callback defaultConfig req) emptyWorld in
  axios (http env
           (mkHttp POST
              "https://auth-dev.curriculobe.com.br/realms/bestema-dev/protocol/openid-connect/token"
              [("Content-Type", "application/x-www-form-urlencoded")]
              [("grant_type", "authorization_code"); ("client_id", "");
               ("client_secret", ""); ("code", "abc");
               ("redirect_uri", "http://localhost:3000/callback")]))
  = Fulfilled (Object allTokens)
  /\ Object allTokens <> Null
  /\ (exists st, In st (trace run)
        /\ outbound (act st)
           = Some (mkHttp GET
                     "https://auth-dev.curriculobe.com.br/realms/bestema-dev/protocol/openid-connect/userinfo"
                     [("Authorization", "Bearer AT")] []))
  /\ sent (response run) = Redirected "/?auth=success"
  /\ headers (response run) !! "Location" = Some "/?auth=success"
  /\ headers (response run) !! "Set-Cookie"
     = Some "sessionId=S; HttpOnly; Path=/; Max-Age=86400"
  /\ session_of (store (final run)) "S"
     = Some (mkSession (Some "IT") (Some "AT") (Some "RT") (Some joao) true).
Proof.
  intros env req run.
  assert (Htok : axios (http env
                          (mkHttp POST
                             "https://auth-dev.curriculobe.com.br/realms/bestema-dev/protocol/openid-connect/token"
                             [("Content-Type", "application/x-www-form-urlencoded")]
                             [("grant_type", "authorization_code"); ("client_id", "");
                              ("client_secret", ""); ("code", "abc");
                              ("redirect_uri", "http://localhost:3000/callback")]))
                 = Fulfilled (Object allTokens))
    by reflexivity.
  assert (Hdata : Object allTokens <> Null) by discriminate.
  split; [exact Htok|]. split; [exact Hdata|].
  destruct (callback_success defaultConfig env req emptyWorld "abc" (Object allTokens)
              eq_refl ltac:(discriminate) Htok Hdata)
    as (Hfetch & _ & _ & Hsent & Hloc & Hcookie & Hinfo & _).
  split; [exact Hfetch|].
  split; [exact Hsent|]. split; [exact Hloc|]. split; [exact Hcookie|].
  exact (Hinfo joao eq_refl).
Defined.

(** Scenario 2: [GET /callback] without a code. *)
Lemma callback_without_code_witness :
  let req := mkRequest None None None in
  let run := handle offlineEnv (callback defaultConfig req) loggedInWorld in
  query_code req = None
  /\ sent (response run) = Redirected "/?error=no_auth_code"
  /\ store (final run) = store loggedInWorld.
Proof.
  intros req run.
  split; [reflexivity|].
  destruct (callback_without_code defaultConfig offlineEnv req loggedInWorld eq_refl)
    as (_ & Hsent & Hstore & _).
  split; [exact Hsent | exact Hstore].
Defined.

(** Scenario 3: the token endpoint answers 400. *)
Lemma callback_exchange_failure_witness :
  let env := answeringEnv (HttpResponse 400 (Object {[ "error" := "invalid_grant" ]})) in
  let req := mkRequest None None (Some "abc") in
  let run := handle env (callback defaultConfig req) loggedInWorld in
  requestFails (http env (tokenRequest defaultConfig "abc"))
  /\ sent (response run) = Redirected "/?error=auth_failed"
  /\ store (final run) = store loggedInWorld.
Proof.
  intros env req run.
  assert (Hfail : requestFails (http env (tokenRequest defaultConfig "abc")))
    by (simpl; lia).
  split; [exact Hfail|].
  destruct (callback_exchange_failure defaultConfig env req loggedInWorld "abc"
              eq_refl ltac:(discriminate) Hfail)
    as (_ & Hsent & Hstore & _).
  split; [exact Hsent | exact Hstore].
Defined.

(** The userinfo endpoint answers 503 after a successful exchange. *)
Lemma callback_userinfo_failure_witness :
  let env := tokenOnlyEnv allTokens in
  let req := mkRequest (Some "sessionId=S") None (Some "abc") in
  let run := handle env (callback defaultConfig req) emptyWorld in
  requestFails (http env (userInfoRequest defaultConfig (Some "AT")))
  /\ sent (response run) = Redirected "/?auth=success"
  /\ exists u, session_of (store (final run)) "S" = Some u
               /\ isAuthenticated u = true /\ userInfo u = None.
Proof.
  intros env req run.
  assert (Hfail : requestFails (http env (userInfoRequest defaultConfig
                                           (member (Object allTokens) "access_token"))))
    by (simpl; lia).
  split; [exact Hfail|].
  destruct (callback_userinfo_failure defaultConfig env req emptyWorld "abc"
              (Object allTokens) eq_refl ltac:(discriminate) eq_refl
              ltac:(discriminate) Hfail)
    as (Hstored & _ & Hsent & _).
  split; [exact Hsent | exact Hstored].
Defined.

(** Scenario 4: [GET /logout] with the cookie of a logged-in session. *)
Lemma logout_authenticated_witness :
  let req := mkRequest (Some "sessionId=S") None None in
  let u := mkSession (Some "IT") (Some "AT") (Some "RT") (Some joao) true in
  let run := handle offlineEnv (logout defaultConfig req) loggedInWorld in
  session_of (store loggedInWorld) (getSessionId req) = Some u
  /\ session_of (store (final run)) "S" = None
  /\ headers (response run) !! "Set-Cookie"
     = Some "sessionId=; HttpOnly; Path=/; Max-Age=0"
  /\ sent (response run)
     = Redirected "https://auth-dev.curriculobe.com.br/realms/bestema-dev/protocol/openid-connect/logout?client_id=&post_logout_redirect_uri=http%3A%2F%2Flocalhost%3A3000%2Flogout-success&id_token_hint=IT"
  /\ headers (response run) !! "Location"
     = Some "https://auth-dev.curriculobe.com.br/realms/bestema-dev/protocol/openid-connect/logout?client_id=&post_logout_redirect_uri=http%3A%2F%2Flocalhost%3A3000%2Flogout-success&id_token_hint=IT".
Proof.
  intros req u run.
  assert (Hu : session_of (store loggedInWorld) (getSessionId req) = Some u)
    by (vm_compute; reflexivity).
  split; [exact Hu|].
  destruct (logout_authenticated defaultConfig offlineEnv req loggedInWorld u Hu eq_refl)
    as (_ & Hgone & Hcookie & _ & Hsent & Hloc & _).
  split; [exact Hgone|]. split; [exact Hcookie|].
  split; [exact Hsent | exact Hloc].
Defined.

(** A logout request that carries no session. *)
Lemma logout_without_session_witness :
  let req := mkRequest None None None in
  let run := handle offlineEnv (logout defaultConfig req) loggedInWorld in
  session_of (store loggedInWorld) (getSessionId req) = None
  /\ sent (response run) = Redirected "/logout-success"
  /\ store (final run) = store loggedInWorld.
Proof.
  intros req run.
  assert (Hno : session_of (store loggedInWorld) (getSessionId req) = None)
    by (vm_compute; reflexivity).
  split; [exact Hno|].
  destruct (logout_without_session defaultConfig offlineEnv req loggedInWorld
              (or_introl Hno))
    as (_ & Hsent & _ & Hstore & _).
  split; [exact Hsent | exact Hstore].
Defined.

(** The world after a login is reachable, with a provider that issues
    access tokens, and its entry is authenticated and has one. *)
Lemma stored_sessions_are_authenticated_witness :
  reachable defaultConfig loggedInWorld
  /\ reachableWith defaultConfig issuesAccessTokens loggedInWorld
  /\ exists u, session_of (store loggedInWorld) "S" = Some u
               /\ isAuthenticated u = true
               /\ exists t, accessToken u = Some t /\ t <> "".
Proof.
  assert (Hreach : reachable defaultConfig loggedInWorld).
  { apply (reach_handle defaultConfig emptyWorld _ LegB).
    apply reach_start. reflexivity. }
  assert (Hwith : reachableWith defaultConfig issuesAccessTokens loggedInWorld).
  { apply (reachWith_handle defaultConfig issuesAccessTokens emptyWorld _ LegB).
    - apply reachWith_start. reflexivity.
    - intros rq data Hpost Htok. unfold providerEnv in Htok. simpl in Htok.
      rewrite Hpost in Htok. simpl in Htok. injection Htok as <-. reflexivity. }
  split; [exact Hreach|]. split; [exact Hwith|].
  destruct (stored_sessions_are_authenticated defaultConfig loggedInWorld Hreach "S")
    as (Hentry & _ & Htoken).
  destruct (Hentry 1%positive) as (u & Hu & Hauth); [vm_compute; reflexivity |].
  exists u. split; [exact Hu |]. split; [exact Hauth |].
  exact (Htoken Hwith u Hu).
Defined.

(* ===================================================================== *)
(** * The log buffer *)
(* ===================================================================== *)

Lemma sliceLast_length {A} (n : nat) (l : list A) :
  List.length (sliceLast n l) = Nat.min n (List.length l).
Proof. unfold sliceLast. rewrite length_skipn. lia. Qed.

Lemma sliceLast_short {A} (n : nat) (l : list A) :
  (List.length l <= n)%nat -> sliceLast n l = l.
Proof.
  intros Hl. unfold sliceLast.
  replace (List.length l - n)%nat with 0%nat by lia. reflexivity.
Qed.

Lemma addLog_sliceLast date message type (l : list LogEntry) :
  addLog date message type l = sliceLast 100 (l ++ [mkLog date message type]).
Proof.
  unfold addLog.
  destruct (Nat.ltb_spec 100 (List.length (l ++ [mkLog date message type])));
    [reflexivity | symmetry; apply sliceLast_short; lia].
Qed.

(** Cutting, appending and cutting again is appending and cutting. *)
Lemma sliceLast_snoc {A} (n : nat) (l : list A) (x : A) :
  sliceLast n (sliceLast n l ++ [x]) = sliceLast n (l ++ [x]).
Proof.
  destruct (Nat.le_gt_cases (List.length l) n) as [Hle | Hgt].
  - rewrite (sliceLast_short n l Hle). reflexivity.
  - unfold sliceLast at 1 3.
    rewrite !length_app, sliceLast_length. simpl List.length.
    replace (Nat.min n (List.length l) + 1 - n)%nat with 1%nat by lia.
    replace (List.length l + 1 - n)%nat with (1 + (List.length l - n))%nat by lia.
    rewrite <- skipn_skipn. f_equal.
    unfold sliceLast. rewrite skipn_app.
    replace (List.length l - n - List.length l)%nat with 0%nat by lia.
    reflexivity.
Qed.

Lemma sliceLast_app_entries {A} (n : nat) (l more : list A) :
  fold_left (fun b x => sliceLast n (b ++ [x])) more (sliceLast n l)
  = sliceLast n (l ++ more).
Proof.
  revert l. induction more as [|x more IH]; intros l; simpl.
  - rewrite app_nil_r. reflexivity.
  - rewrite sliceLast_snoc, IH, <- app_assoc. reflexivity.
Qed.

(** X1. After [addLog] the buffer has one entry more, but never more than
    100. *)
Theorem addLog_length date message type (l : list LogEntry) :
  List.length (addLog date message type l) = Nat.min (S (List.length l)) 100.
Proof.
  rewrite addLog_sliceLast, sliceLast_length, length_app. simpl List.length. lia.
Qed.

(** X2. [addLog] keeps the most recent entries in their order: the buffer
    afterwards is the end of the old buffer followed by the new entry, which
    is its last element, and nothing is dropped while there are fewer than
    100 entries. *)
Theorem addLog_keeps_latest date message type (l : list LogEntry) :
  let logEntry := mkLog date message type in
  (exists dropped,
     (l ++ [logEntry])%list = (dropped ++ addLog date message type l)%list
     /\ List.length dropped = (S (List.length l) - 100)%nat)
  /\ last (addLog date message type l) = Some logEntry
  /\ ((List.length l < 100)%nat -> addLog date message type l = (l ++ [logEntry])%list).
Proof.
  intros logEntry. rewrite addLog_sliceLast. fold logEntry.
  split; [| split].
  - exists (firstn (List.length (l ++ [logEntry]) - 100) (l ++ [logEntry])).
    unfold sliceLast. rewrite firstn_skipn. split; [reflexivity|].
    rewrite length_firstn, length_app. simpl. lia.
  - unfold sliceLast. rewrite length_app. simpl List.length.
    destruct (Nat.le_gt_cases (List.length l + 1) 100) as [Hle | Hgt].
    + replace (List.length l + 1 - 100)%nat with 0%nat by lia.
      simpl. apply last_snoc.
    + rewrite skipn_app.
      replace (List.length l + 1 - 100 - List.length l)%nat with 0%nat by lia.
      simpl. apply last_snoc.
  - intros Hl. apply sliceLast_short. rewrite length_app. simpl. lia.
Qed.

(** What one effect does to the log buffer. *)
Lemma perform_logs env {X} (e : Eff X) w r :
  logs (snd (fst (perform env e w r)))
  = match loggedAt env (mkStep (Did e (fst (fst (perform env e w r)))) w) with
    | Some logEntry => sliceLast 100 (logs w ++ [logEntry])
    | None => logs w
    end.
Proof. destruct e; try reflexivity. simpl. apply addLog_sliceLast. Qed.

(** A handler leaves in the buffer what was there and what it logged,
    through [addLog]. *)
Lemma exec_logs env {R} (p : Prog R) w r :
  logs (final (exec env p w r))
  = fold_left (fun b x => sliceLast 100 (b ++ [x]))
      (omap (loggedAt env) (trace (exec env p w r))) (logs w).
Proof.
  revert w r. induction p as [v | X e k IH]; intros w r; [reflexivity|].
  simpl. pose proof (perform_logs env e w r) as Hl.
  destruct (perform env e w r) as [[x w'] r']. simpl in Hl |- *.
  rewrite IH, Hl.
  destruct (loggedAt env (mkStep (Did e x) w)); reflexivity.
Qed.

(** X3. What a handler does to the log buffer: afterwards the buffer is the
    last 100 entries of the buffer before followed by the entries the
    handler logged, in the order of its calls of [addLog]; so a buffer of at
    most 100 entries stays one. *)
Theorem handler_appends_to_logs env {R} (p : Prog R) w r :
  (List.length (logs w) <= 100)%nat ->
  let run := exec env p w r in
  logs (final run) = sliceLast 100 (logs w ++ omap (loggedAt env) (trace run))
  /\ (List.length (logs (final run)) <= 100)%nat.
Proof.
  intros Hw run.
  assert (Heq : logs (final run)
                = sliceLast 100 (logs w ++ omap (loggedAt env) (trace run))).
  { unfold run. rewrite exec_logs.
    rewrite <- (sliceLast_short 100 (logs w) Hw) at 1.
    apply sliceLast_app_entries. }
  split; [exact Heq|]. rewrite Heq, sliceLast_length. lia.
Qed.

Lemma handler_appends_to_logs_witness :
  let env := providerEnv allTokens joao in
  let req := mkRequest (Some "sessionId=S") None (Some "abc") in
  let run := handle env (callback defaultConfig req) emptyWorld in
  (List.length (logs emptyWorld) <= 100)%nat
  /\ List.map message (logs (final run))
     = ["🔄 Authorization code received: abc...";
        "🔄 Exchanging code for access tokens...";
        "🎉 Tokens received successfully!";
        "👤 User authenticated: joao";
        "✅ Authentication completed! Redirecting to main page..."].
Proof.
  intros env req run.
  assert (Hw : (List.length (logs emptyWorld) <= 100)%nat) by (simpl; lia).
  split; [exact Hw|].
  destruct (handler_appends_to_logs env (callback defaultConfig req) emptyWorld
              freshResponse Hw) as [Heq _].
  unfold run, handle. rewrite Heq. vm_compute. reflexivity.
Defined.

(* ===================================================================== *)
(** * Session identifiers: minting and reading back *)
(* ===================================================================== *)

Lemma chars_append (a b : string) :
  list_ascii_of_string (a +:+ b)
  = (list_ascii_of_string a ++ list_ascii_of_string b)%list.
Proof.
  induction a as [|c a IH]; [reflexivity|].
  change (c :: list_ascii_of_string (a +:+ b)
          = c :: (list_ascii_of_string a ++ list_ascii_of_string b)%list).
  now rewrite IH.
Qed.

Lemma substring_length (n m : nat) (s : string) :
  (String.length (String.substring n m s) <= m)%nat.
Proof.
  revert n m. induction s as [|c s IH]; intros [|n] [|m]; simpl; try lia.
  - specialize (IH 0%nat m). lia.
  - apply (IH n 0%nat).
  - apply (IH n (S m)).
Qed.

Lemma substring_chars (n m : nat) (s : string) (c : ascii) :
  In c (list_ascii_of_string (String.substring n m s)) ->
  In c (list_ascii_of_string s).
Proof.
  revert n m. induction s as [|d s IH]; intros [|n] [|m]; simpl; try tauto.
  - intros [-> | Hc]; [left; reflexivity | right; exact (IH _ _ Hc)].
  - intros Hc. right. exact (IH _ _ Hc).
  - intros Hc. right. exact (IH _ _ Hc).
Qed.

(** X4. [generateSessionId()] returns at most 26 characters, each taken
    from one of the two random strings it draws; it draws exactly these two
    and changes nothing else of the process or of the response. *)
Theorem generateSessionId_mints env w r :
  let run := exec env generateSessionId w r in
  (String.length (value run) <= 26)%nat
  /\ (forall c, In c (list_ascii_of_string (value run)) ->
        In c (list_ascii_of_string (random36 env (rng w)))
        \/ In c (list_ascii_of_string (random36 env (S (rng w)))))
  /\ final run = mkWorld (store w) (logs w) (S (S (rng w))) (clk w)
  /\ response run = r
  /\ List.map act (trace run)
     = [Did MathRandom36 (random36 env (rng w));
        Did MathRandom36 (random36 env (S (rng w)))].
Proof.
  intros run.
  change (value run) with (mintedSessionId env w). unfold mintedSessionId.
  split; [| split; [| repeat split]].
  - rewrite append_length. unfold Js.substring.
    pose proof (substring_length 2 (15 - 2) (random36 env (rng w))).
    pose proof (substring_length 2 (15 - 2) (random36 env (S (rng w)))).
    simpl Nat.sub in *. lia.
  - intros c Hc. rewrite chars_append in Hc. apply in_app_or in Hc.
    destruct Hc as [Hc | Hc]; [left | right]; exact (substring_chars _ _ _ _ Hc).
Qed.

Lemma trimEnd_cons (c : ascii) (s : string) :
  Js.isWhiteSpace c = false -> Js.trimEnd (String c s) = String c (Js.trimEnd s).
Proof. intros Hc. simpl. rewrite Hc. destruct (Js.trimEnd s); reflexivity. Qed.

Lemma trimEnd_prefix (p s : string) :
  (forall c, In c (list_ascii_of_string p) -> Js.isWhiteSpace c = false) ->
  Js.trimEnd (p +:+ s) = p +:+ Js.trimEnd s.
Proof.
  induction p as [|c p IH]; intros Hp; [reflexivity|].
  change (Js.trimEnd (String c (p +:+ s)) = String c (p +:+ Js.trimEnd s)).
  rewrite trimEnd_cons by (apply Hp; left; reflexivity).
  rewrite IH; [reflexivity|]. intros d Hd. apply Hp. right. exact Hd.
Qed.

Lemma trimEnd_without_space (s : string) :
  (forall c, In c (list_ascii_of_string s) -> Js.isWhiteSpace c = false) ->
  Js.trimEnd s = s.
Proof.
  intros Hs. rewrite <- (append_empty_r s) at 1.
  rewrite trimEnd_prefix by exact Hs. apply append_empty_r.
Qed.

Lemma prefix_of_append (p s : string) : String.prefix p (p +:+ s) = true.
Proof.
  induction p as [|c p IH]; [destruct s; reflexivity|].
  change (String.prefix (String c p) (String c (p +:+ s)) = true).
  simpl. destruct (ascii_dec c c); [exact IH | contradiction].
Qed.

(** The header [sessionId=id] is one cookie, the session cookie. *)
Lemma findSessionCookie_alone (id : string) :
  (forall c, In c (list_ascii_of_string id) -> c <> ";"%char) ->
  Js.trimEnd id = id ->
  findSessionCookie ("sessionId=" +:+ id) = Some ("sessionId=" +:+ id).
Proof.
  intros Hsemi Htrim. unfold findSessionCookie.
  rewrite split_without_separator.
  - simpl List.map. unfold Js.trim.
    change (Js.trimStart ("sessionId=" +:+ id)) with ("sessionId=" +:+ id).
    rewrite trimEnd_prefix, Htrim.
    + simpl List.find. unfold Js.startsWith. rewrite prefix_of_append. reflexivity.
    + intros c Hc. simpl in Hc.
      repeat (destruct Hc as [<- | Hc]; [reflexivity|]). destruct Hc.
  - intros c Hc. rewrite chars_append in Hc. apply in_app_or in Hc.
    destruct Hc as [Hc | Hc]; [| exact (Hsemi c Hc)].
    simpl in Hc. repeat (destruct Hc as [<- | Hc]; [discriminate|]). destruct Hc.
Qed.

Lemma getSessionId_of_cookie (id : string) a q :
  (forall c, In c (list_ascii_of_string id) -> c <> ";"%char /\ c <> "="%char) ->
  Js.trimEnd id = id ->
  getSessionId (mkRequest (Some ("sessionId=" +:+ id)) a q) = id.
Proof.
  intros Hid Htrim. unfold getSessionId. simpl cookie.
  change (String.eqb ("sessionId=" +:+ id) "") with false. cbv iota.
  rewrite findSessionCookie_alone; [| intros c Hc; apply (Hid c Hc) | exact Htrim].
  apply sessionCookie_value_verbatim. intros c Hc. apply (Hid c Hc).
Qed.

(** X5. The cookie the callback sets is read back: for an identifier
    without [;] and [=] that does not end in white space, the request that
    carries the cookie [sessionId=<id>] resolves to that identifier,
    whatever its [Authorization] header. *)
Theorem getSessionId_reads_cookie_back (id : string) a q :
  (forall c, In c (list_ascii_of_string id) -> c <> ";"%char /\ c <> "="%char) ->
  Js.trimEnd id = id ->
  getSessionId (mkRequest (Some ("sessionId=" +:+ id)) a q) = id.
Proof.
  intros Hid Htrim. unfold getSessionId. simpl cookie.
  change (String.eqb ("sessionId=" +:+ id) "") with false. cbv iota.
  rewrite findSessionCookie_alone; [| intros c Hc; apply (Hid c Hc) | exact Htrim].
  rewrite sessionCookie_value, split_without_separator; [reflexivity|].
  intros c Hc. apply (Hid c Hc).
Qed.

Lemma getSessionId_reads_cookie_back_witness :
  let id := "k3x9 pq7" in
  (forall c, In c (list_ascii_of_string id) -> c <> ";"%char /\ c <> "="%char)
  /\ Js.trimEnd id = id
  /\ getSessionId (mkRequest (Some ("sessionId=" +:+ id)) (Some "Bearer t") None) = id.
Proof.
  intros id.
  assert (Hid : forall c, In c (list_ascii_of_string id) ->
                  c <> ";"%char /\ c <> "="%char).
  { intros c Hc. simpl in Hc.
    repeat (destruct Hc as [<- | Hc]; [split; discriminate|]). destruct Hc. }
  split; [exact Hid|]. split; [reflexivity|].
  exact (getSessionId_reads_cookie_back id (Some "Bearer t") None Hid eq_refl).
Defined.

(** The characters of [Math.random().toString(36)]. *)
Lemma base36_clean (c : ascii) :
  (let n := nat_of_ascii c in
   ((48 <=? n) && (n <=? 57) || (97 <=? n) && (n <=? 122) || (n =? 46))%nat = true) ->
  c <> ";"%char /\ c <> "="%char /\ Js.isWhiteSpace c = false.
Proof.
  intros Hc. cbv zeta in Hc. unfold Js.isWhiteSpace.
  repeat split; try (intros ->; discriminate Hc).
  destruct (Nat.leb_spec 48 (nat_of_ascii c)), (Nat.leb_spec (nat_of_ascii c) 57),
    (Nat.leb_spec 97 (nat_of_ascii c)), (Nat.leb_spec (nat_of_ascii c) 122),
    (Nat.eqb_spec (nat_of_ascii c) 46); simpl in Hc; try discriminate Hc;
    destruct (Nat.leb_spec 9 (nat_of_ascii c)), (Nat.leb_spec (nat_of_ascii c) 13),
      (Nat.eqb_spec (nat_of_ascii c) 32), (Nat.eqb_spec (nat_of_ascii c) 160);
    simpl; try reflexivity; lia.
Qed.

(** X6. A minted identifier comes back from its cookie: when the random
    strings are made of digits, lower-case letters and the point, as
    [Math.random().toString(36)] prints them, the identifier
    [generateSessionId()] mints is the one [getSessionId] resolves from the
    cookie [sessionId=<id>]. *)
Theorem minted_id_reads_back env w a q :
  (forall n c, In c (list_ascii_of_string (random36 env n)) ->
     let k := nat_of_ascii c in
     ((48 <=? k) && (k <=? 57) || (97 <=? k) && (k <=? 122) || (k =? 46))%nat = true) ->
  getSessionId (mkRequest (Some ("sessionId=" +:+ mintedSessionId env w)) a q)
  = mintedSessionId env w.
Proof.
  intros Hrnd.
  assert (Hclean : forall c, In c (list_ascii_of_string (mintedSessionId env w)) ->
                     c <> ";"%char /\ c <> "="%char /\ Js.isWhiteSpace c = false).
  { intros c Hc. unfold mintedSessionId in Hc. rewrite chars_append in Hc.
    apply in_app_or in Hc.
    destruct Hc as [Hc | Hc]; apply substring_chars in Hc;
      exact (base36_clean c (Hrnd _ c Hc)). }
  apply getSessionId_of_cookie.
  - intros c Hc. destruct (Hclean c Hc) as (H1 & H2 & _). split; assumption.
  - apply trimEnd_without_space. intros c Hc. apply (Hclean c Hc).
Qed.

Lemma minted_id_reads_back_witness :
  (forall n c, In c (list_ascii_of_string (random36 offlineEnv n)) ->
     let k := nat_of_ascii c in
     ((48 <=? k) && (k <=? 57) || (97 <=? k) && (k <=? 122) || (k =? 46))%nat = true)
  /\ getSessionId (mkRequest (Some "sessionId=4fzyo82mvyr4fzyo82mvyr") None None)
     = "4fzyo82mvyr4fzyo82mvyr".
Proof.
  assert (Hrnd : forall n c, In c (list_ascii_of_string (random36 offlineEnv n)) ->
     let k := nat_of_ascii c in
     ((48 <=? k) && (k <=? 57) || (97 <=? k) && (k <=? 122) || (k =? 46))%nat = true).
  { intros n c Hc. simpl in Hc.
    repeat (destruct Hc as [<- | Hc]; [reflexivity|]). destruct Hc. }
  split; [exact Hrnd|].
  exact (minted_id_reads_back offlineEnv emptyWorld None None Hrnd).
Defined.







Lemma split_first_piece (sep : ascii) (a rest : string) :
  (forall c, In c (list_ascii_of_string a) -> c <> sep) ->
  Js.split sep (a +:+ String sep rest) = a :: Js.split sep rest.
Proof.
  induction a as [|c a IH]; intros Ha.
  - change (Js.split sep (String sep rest) = "" :: Js.split sep rest).
    simpl. now rewrite Ascii.eqb_refl.
  - change (Js.split sep (String c (a +:+ String sep rest))
            = String c a :: Js.split sep rest).
    simpl. destruct (Ascii.eqb_spec c sep) as [-> | _].
    + exfalso. apply (Ha sep); [left; reflexivity | reflexivity].
    + rewrite IH; [reflexivity|]. intros d Hd. apply Ha. right. exact Hd.
Qed.

(** X8. A cookie that is not the session cookie is passed over: when the
    first cookie of the header does not start with [sessionId=] once
    trimmed, the identifier is the one the rest of the header gives. *)
Theorem getSessionId_skips_other_cookie (first rest : string) a q :
  (forall c, In c (list_ascii_of_string first) -> c <> ";"%char) ->
  Js.startsWith "sessionId=" (Js.trim first) = false ->
  getSessionId (mkRequest (Some (first +:+ String ";"%char rest)) a q)
  = getSessionId (mkRequest (Some rest) a q).
Proof.
  intros Hfirst Hother.
  assert (Hget : forall h, getSessionId (mkRequest (Some h) a q)
                 = if String.eqb h "" then Js.or_else a "default"
                   else match findSessionCookie h with
                        | Some sessionCookie =>
                            nth 1 (Js.split "="%char sessionCookie) ""
                        | None => Js.or_else a "default"
                        end) by reflexivity.
  rewrite !Hget.
  assert (Hne : String.eqb (first +:+ String ";"%char rest) "" = false)
    by (destruct first; reflexivity).
  rewrite Hne.
  assert (Hfind : findSessionCookie (first +:+ String ";"%char rest)
                  = findSessionCookie rest).
  { unfold findSessionCookie. rewrite split_first_piece by exact Hfirst.
    simpl. rewrite Hother. reflexivity. }
  rewrite Hfind.
  destruct (String.eqb_spec rest "") as [-> | _]; reflexivity.
Qed.

Lemma getSessionId_skips_other_cookie_witness :
  let first := " theme=dark" in
  (forall c, In c (list_ascii_of_string first) -> c <> ";"%char)
  /\ Js.startsWith "sessionId=" (Js.trim first) = false
  /\ getSessionId (mkRequest (Some " theme=dark; sessionId=k3x9") None None) = "k3x9".
Proof.
  intros first.
  assert (Hfirst : forall c, In c (list_ascii_of_string first) -> c <> ";"%char).
  { intros c Hc. simpl in Hc.
    repeat (destruct Hc as [<- | Hc]; [discriminate|]). destruct Hc. }
  split; [exact Hfirst|]. split; [reflexivity|].
  exact (getSessionId_skips_other_cookie first " sessionId=k3x9" None None
           Hfirst eq_refl).
Defined.

(* ===================================================================== *)
(** * Leg A: the login handler *)
(* ===================================================================== *)

(** X9. Every login request, whatever it carries and whatever the store
    holds, is answered with a 302 to the authorization URL
    [<endpoint>/protocol/openid-connect/auth?client_id=<clientId>&redirect_uri=<redirectUri, component-encoded>&response_type=code&scope=<scope, component-encoded>],
    sent in the [Location] header as Express encodes it, and with no cookie;
    the handler writes nothing to the session store, makes no outbound call
    and logs one entry. *)
Theorem login_redirects keycloak env req w :
  let run := handle env (login keycloak req) w in
  let url :=
    endpoint keycloak +:+ "/protocol/openid-connect/auth?client_id="
    +:+ clientId keycloak +:+ "&redirect_uri="
    +:+ Js.encodeURIComponent (redirectUri keycloak)
    +:+ "&response_type=code&scope=" +:+ Js.encodeURIComponent (scope keycloak) in
  response run
  = mkResponse 302 (<["Location" := encodeUrl env url]> ∅) (Redirected url)
  /\ headers (response run) !! "Set-Cookie" = None
  /\ store (final run) = store w
  /\ Forall (fun st => writesStore (act st) = false /\ outbound (act st) = None)
       (trace run)
  /\ omap (loggedAt env) (trace run)
     = [mkLog (now env (clk w)) "🔑 Redirecting to Keycloak for authentication..." info].
Proof.
  intros run url. split; [reflexivity|]. split.
  - simpl. rewrite lookup_insert_ne by discriminate. apply lookup_empty.
  - repeat split; repeat constructor.
Qed.

(** A login with the client id [my client]: the blank of the URL is
    escaped in the [Location] header, the escapes of the redirect URI are
    left as they are. *)
Lemma login_redirects_witness :
  let run := handle offlineEnv (login spacedConfig (mkRequest None None None)) emptyWorld in
  sent (response run)
  = Redirected "https://auth-dev.curriculobe.com.br/realms/bestema-dev/protocol/openid-connect/auth?client_id=my client&redirect_uri=http%3A%2F%2Flocalhost%3A3000%2Fcallback&response_type=code&scope=openid%20profile%20email"
  /\ headers (response run) !! "Location"
     = Some "https://auth-dev.curriculobe.com.br/realms/bestema-dev/protocol/openid-connect/auth?client_id=my%20client&redirect_uri=http%3A%2F%2Flocalhost%3A3000%2Fcallback&response_type=code&scope=openid%20profile%20email"
  /\ statusCode (response run) = 302.
Proof.
  intros run.
  destruct (login_redirects spacedConfig offlineEnv (mkRequest None None None) emptyWorld)
    as (Hres & _).
  fold run in Hres. rewrite Hres.
  split; [reflexivity |]. split; [| reflexivity].
  simpl headers. rewrite lookup_insert_eq. vm_compute. reflexivity.
Defined.

(* ===================================================================== *)
(** * Leg C: what the status payload says *)
(* ===================================================================== *)

Lemma status_payload env req w :
  let u := match sessions (store w) !! getSessionId req with
           | Some l => deref (store w) l
           | None => mkSession None None None None false
           end in
  sent (response (handle env (status req) w))
  = Json (mkPayload "🟢 Server Online"
            (if isAuthenticated u then
               match userInfo u with
               | Some claims =>
                   "🟢 Authenticated ("
                   +:+ Js.or_else (Js.or (claims !! "preferred_username")
                                     (claims !! "email")) "User" +:+ ")"
               | None => "🟢 Authenticated"
               end
             else "❌ Not Authenticated")
            (if isAuthenticated u then userInfo u else None)
            (now env (clk w)) (size (sessions (store w)))
            (List.length (logs w)) (getSessionId req)).
Proof.
  unfold handle, status.
  generalize (getSessionId req) as sid. intros sid. run.
  destruct (sessions (store w) !! sid) as [l|]; run; [| reflexivity].
  destruct (isAuthenticated (deref (store w) l)); [| reflexivity].
  destruct (userInfo (deref (store w) l)); reflexivity.
Qed.

Lemma deref_session_of s id u :
  session_of s id = Some u ->
  exists l, sessions s !! id = Some l /\ deref s l = u.
Proof.
  unfold session_of, deref. destruct (sessions s !! id) as [l|]; [| discriminate].
  simpl. intros Hu. exists l. rewrite Hu. split; reflexivity.
Qed.

(** X10. Without a stored, authenticated session under the request's
    identifier, the status payload says "Not Authenticated" and carries no
    user information; it reports the number of stored sessions, the number
    of buffered log entries and the identifier it resolved. *)
Theorem status_unauthenticated env req w :
  active (store w) (getSessionId req) = false ->
  exists payload,
    sent (response (handle env (status req) w)) = Json payload
    /\ p_user payload = "❌ Not Authenticated"
    /\ p_userInfo payload = None
    /\ p_sessions payload = size (sessions (store w))
    /\ p_logs payload = List.length (logs w)
    /\ p_sessionId payload = getSessionId req.
Proof.
  rewrite active_lookup. intros Hact.
  eexists. split; [apply status_payload|]. simpl.
  destruct (sessions (store w) !! getSessionId req) as [l|];
    [rewrite Hact |]; repeat split.
Qed.

Lemma status_unauthenticated_witness :
  let req := mkRequest (Some "sessionId=other") None None in
  active (store loggedInWorld) (getSessionId req) = false
  /\ exists payload,
       sent (response (handle offlineEnv (status req) loggedInWorld)) = Json payload
       /\ p_user payload = "❌ Not Authenticated"
       /\ p_sessions payload = 1%nat.
Proof.
  intros req.
  assert (Hact : active (store loggedInWorld) (getSessionId req) = false)
    by (vm_compute; reflexivity).
  split; [exact Hact|].
  destruct (status_unauthenticated offlineEnv req loggedInWorld Hact)
    as (payload & Hsent & Huser & _ & Hn & _).
  exists payload. split; [exact Hsent|]. split; [exact Huser|].
  rewrite Hn. vm_compute. reflexivity.
Defined.

(** X11. For a stored, authenticated session the status payload says
    "Authenticated" and carries the session's user information; the name it
    shows is the [preferred_username] claim when that is a non-empty string,
    else the [email] claim when that is one, else "User". *)
Theorem status_authenticated env req w u :
  session_of (store w) (getSessionId req) = Some u ->
  isAuthenticated u = true ->
  exists payload,
    sent (response (handle env (status req) w)) = Json payload
    /\ p_userInfo payload = userInfo u
    /\ (userInfo u = None -> p_user payload = "🟢 Authenticated")
    /\ (forall claims name,
          userInfo u = Some claims ->
          (claims !! "preferred_username" = Some name /\ name <> ""
           \/ Js.truthy (claims !! "preferred_username") = false
              /\ claims !! "email" = Some name /\ name <> ""
           \/ Js.truthy (claims !! "preferred_username") = false
              /\ Js.truthy (claims !! "email") = false /\ name = "User") ->
          p_user payload = "🟢 Authenticated (" +:+ name +:+ ")").
Proof.
  intros Hu Hauth. destruct (deref_session_of _ _ _ Hu) as (l & Hl & Hd).
  eexists. split; [apply status_payload|]. simpl. rewrite Hl, Hd, Hauth.
  split; [reflexivity|]. split; [intros ->; reflexivity|].
  intros claims name -> Hname. do 2 f_equal.
  unfold Js.or.
  destruct Hname as [[Hp Hne] | [(Hp & He & Hne) | (Hp & He & ->)]].
  - rewrite Hp, (truthy_Some name Hne). simpl.
    destruct (String.eqb_spec name ""); [contradiction | reflexivity].
  - rewrite Hp, He. simpl.
    destruct (String.eqb_spec name ""); [contradiction | reflexivity].
  - rewrite Hp. unfold Js.truthy in He. unfold Js.or_else.
    destruct (claims !! "email") as [m|]; [| reflexivity].
    destruct (String.eqb m ""); [reflexivity | discriminate He].
Qed.

Lemma status_authenticated_witness :
  let req := mkRequest (Some "sessionId=S") None None in
  let u := mkSession (Some "IT") (Some "AT") (Some "RT") (Some joao) true in
  session_of (store loggedInWorld) (getSessionId req) = Some u
  /\ exists payload,
       sent (response (handle offlineEnv (status req) loggedInWorld)) = Json payload
       /\ p_userInfo payload = Some joao
       /\ p_user payload = "🟢 Authenticated (joao)".
Proof.
  intros req u.
  assert (Hu : session_of (store loggedInWorld) (getSessionId req) = Some u)
    by (vm_compute; reflexivity).
  split; [exact Hu|].
  destruct (status_authenticated offlineEnv req loggedInWorld u Hu eq_refl)
    as (payload & Hsent & Hinfo & _ & Hname).
  exists payload. split; [exact Hsent|]. split; [exact Hinfo|].
  apply (Hname joao "joao" eq_refl). left. split; [reflexivity | discriminate].
Defined.

(* ===================================================================== *)
(** * Leg B: outcomes, outbound calls and the other sessions *)
(* ===================================================================== *)

Lemma Data_eq_dec (data : Data) (other : Data) : {data = other} + {data <> other}.
Proof.
  destruct data as [| | m], other as [| | m'];
    try (left; reflexivity); try (right; discriminate).
  destruct (decide (m = m')) as [-> | Hne]; [left; reflexivity |].
  right. intros [= Heq]. exact (Hne Heq).
Qed.

Lemma callback_success_run keycloak env req w code data :
  query_code req = Some code ->
  code <> "" ->
  axios (http env (tokenRequest keycloak code)) = Fulfilled data ->
  data <> Null ->
  let sid := callbackSessionId env w req in
  let l := fresh (dom (heap (store w))) in
  let created := mkSession (member data "id_token") (member data "access_token")
                   (member data "refresh_token") None true in
  let u := match axios (http env (userInfoRequest keycloak (member data "access_token"))) with
           | Fulfilled claims => assignUserInfo claims created
           | Rejected _ => created
           end in
  let run := handle env (callback keycloak req) w in
  store (final run)
  = mkStore (<[sid := l]> (sessions (store w))) (<[l := u]> (heap (store w)))
  /\ response run
     = mkResponse 302
         (<["Location" := encodeUrl env "/?auth=success"]>
            (<["Set-Cookie" := "sessionId=" +:+ sid +:+ "; HttpOnly; Path=/; Max-Age=86400"]> ∅))
         (Redirected "/?auth=success").
Proof.
  intros Hcode Hne Htok Hdata.
  unfold callbackSessionId, handle, callback, callbackSession, exchangeFailed. rewrite Hcode.
  generalize (getSessionId req) as sid0. intros sid0.
  rewrite (truthy_Some code Hne).
  destruct (String.eqb sid0 "default"); run; rewrite Htok; run;
    (destruct data as [| | members]; [contradiction | |]); run;
    (destruct (axios (http env (userInfoRequest keycloak _)))
       as [[| | claims] | e]; run); try rewrite alter_insert_eq; split; reflexivity.
Qed.

Lemma callback_failure_run keycloak env req w :
  let run := handle env (callback keycloak req) w in
  (Js.truthy (query_code req) = false ->
     store (final run) = store w
     /\ response run
        = mkResponse 302 (<["Location" := encodeUrl env "/?error=no_auth_code"]> ∅)
            (Redirected "/?error=no_auth_code"))
  /\ (forall code, query_code req = Some code -> code <> "" ->
        (exists e, axios (http env (tokenRequest keycloak code)) = Rejected e)
        \/ axios (http env (tokenRequest keycloak code)) = Fulfilled Null ->
        store (final run) = store w
        /\ response run
           = mkResponse 302 (<["Location" := encodeUrl env "/?error=auth_failed"]> ∅)
               (Redirected "/?error=auth_failed")).
Proof.
  unfold handle, callback, callbackSession, exchangeFailed.
  generalize (getSessionId req) as sid0. intros sid0. split.
  - intros ->. destruct (String.eqb sid0 "default"); run; split; reflexivity.
  - intros code -> Hne [[e He] | He]; rewrite (truthy_Some code Hne);
      destruct (String.eqb sid0 "default"); run; rewrite He; run; split; reflexivity.
Qed.

(** X26. A callback whose token exchange is fulfilled with the body
    [null] is answered as a failed exchange: after the entry that says the
    tokens were received, reading a member of [null] throws inside the
    [try] and the [catch] logs an error; the response is a 302 to
    [/?error=auth_failed] without any cookie, and no step of the handler
    writes to the session store, which is the same afterwards and at every
    step. *)
Theorem callback_null_token_response keycloak env req w code :
  query_code req = Some code ->
  code <> "" ->
  axios (http env
           (mkHttp POST (endpoint keycloak +:+ "/protocol/openid-connect/token")
              [("Content-Type", "application/x-www-form-urlencoded")]
              [("grant_type", "authorization_code");
               ("client_id", clientId keycloak);
               ("client_secret", clientSecret keycloak);
               ("code", code);
               ("redirect_uri", redirectUri keycloak)]))
  = Fulfilled Null ->
  let run := handle env (callback keycloak req) w in
  statusCode (response run) = 302
  /\ sent (response run) = Redirected "/?error=auth_failed"
  /\ headers (response run) !! "Location" = Some (encodeUrl env "/?error=auth_failed")
  /\ headers (response run) !! "Set-Cookie" = None
  /\ store (final run) = store w
  /\ Forall (fun st => writesStore (act st) = false
                       /\ store (before st) = store w) (trace run)
  /\ exists d0 d1 d2 d3 detail,
       omap (loggedAt env) (trace run)
       = [mkLog d0 ("🔄 Authorization code received: "
                      +:+ Js.substring 0 20 code +:+ "...") success;
          mkLog d1 "🔄 Exchanging code for access tokens..." info;
          mkLog d2 "🎉 Tokens received successfully!" success;
          mkLog d3 ("❌ Error obtaining tokens: " +:+ detail) error].
Proof.
  intros Hcode Hne Htok.
  change (mkHttp POST _ _ _) with (tokenRequest keycloak code) in Htok.
  unfold handle, callback, callbackSession, exchangeFailed. rewrite Hcode.
  generalize (getSessionId req) as sid. intros sid.
  rewrite (truthy_Some code Hne).
  destruct (String.eqb sid "default"); run; rewrite Htok; run.
  all: split; [reflexivity |]. all: split; [reflexivity |].
  all: split; [apply lookup_insert_eq |].
  all: split; [rewrite lookup_insert_ne by discriminate; apply lookup_empty |].
  all: split; [reflexivity |].
  all: split; [repeat constructor |].
  all: do 5 eexists; reflexivity.
Qed.

(** The token endpoint answers 200 with the body [null] while session [S]
    is logged in. *)
Lemma callback_null_token_response_witness :
  let env := answeringEnv (HttpResponse 200 Null) in
  let req := mkRequest (Some "sessionId=T") None (Some "abc") in
  let run := handle env (callback defaultConfig req) loggedInWorld in
  sent (response run) = Redirected "/?error=auth_failed"
  /\ headers (response run) !! "Location" = Some "/?error=auth_failed"
  /\ headers (response run) !! "Set-Cookie" = None
  /\ store (final run) = store loggedInWorld
  /\ session_of (store (final run)) "T" = None.
Proof.
  intros env req run.
  destruct (callback_null_token_response defaultConfig env req loggedInWorld "abc"
              eq_refl ltac:(discriminate) eq_refl)
    as (_ & Hsent & Hloc & Hcookie & Hst & _).
  fold run in Hsent, Hloc, Hcookie, Hst.
  split; [exact Hsent |]. split; [exact Hloc |]. split; [exact Hcookie |].
  split; [exact Hst |]. rewrite Hst. vm_compute. reflexivity.
Defined.

(** The two ways the callback answers a request whose code is a string or
    missing. *)
Lemma callback_run_outcomes keycloak env req w :
  let sid := callbackSessionId env w req in
  let run := handle env (callback keycloak req) w in
  statusCode (response run) = 302
  /\ (sent (response run) = Redirected "/?auth=success"
      /\ headers (response run) !! "Set-Cookie"
         = Some ("sessionId=" +:+ sid +:+ "; HttpOnly; Path=/; Max-Age=86400")
      /\ active (store (final run)) sid = true
      \/ (sent (response run) = Redirected "/?error=no_auth_code"
          \/ sent (response run) = Redirected "/?error=auth_failed")
         /\ headers (response run) !! "Set-Cookie" = None
         /\ store (final run) = store w).
Proof.
  intros sid run.
  destruct (callback_failure_run keycloak env req w) as [Hnone Hfail].
  fold run in Hnone, Hfail.
  destruct (Js.truthy (query_code req)) eqn:Hcode.
  - destruct (query_code req) as [code|] eqn:Hq; [| discriminate Hcode].
    assert (Hne : code <> "") by (intros ->; discriminate Hcode).
    assert (Herr : (exists e, axios (http env (tokenRequest keycloak code)) = Rejected e)
                   \/ axios (http env (tokenRequest keycloak code)) = Fulfilled Null ->
                   statusCode (response run) = 302
                   /\ (sent (response run) = Redirected "/?auth=success"
                       /\ headers (response run) !! "Set-Cookie"
                          = Some ("sessionId=" +:+ sid +:+ "; HttpOnly; Path=/; Max-Age=86400")
                       /\ active (store (final run)) sid = true
                       \/ (sent (response run) = Redirected "/?error=no_auth_code"
                           \/ sent (response run) = Redirected "/?error=auth_failed")
                          /\ headers (response run) !! "Set-Cookie" = None
                          /\ store (final run) = store w)).
    { intros Hbad. destruct (Hfail code eq_refl Hne Hbad) as [Hst Hres].
      rewrite Hres, Hst. simpl. split; [reflexivity|]. right.
      split; [right; reflexivity|]. split; [| reflexivity].
      rewrite lookup_insert_ne by discriminate. apply lookup_empty. }
    destruct (axios (http env (tokenRequest keycloak code))) as [data | e] eqn:Htok.
    + destruct (Data_eq_dec data Null) as [-> | Hdata];
        [apply Herr; right; reflexivity |].
      destruct (callback_success_run keycloak env req w code data Hq Hne Htok Hdata)
        as [Hst Hres].
      fold run in Hst, Hres. fold sid in Hst, Hres. rewrite Hres, Hst. simpl.
      split; [reflexivity|]. left. split; [reflexivity|].
      split; [rewrite lookup_insert_ne by discriminate; apply lookup_insert_eq|].
      unfold active. rewrite session_of_stored.
      destruct (axios (http env (userInfoRequest keycloak (member data "access_token"))));
        reflexivity.
    + apply Herr. left. exists e. reflexivity.
  - destruct (Hnone eq_refl) as [Hst Hres].
    rewrite Hres, Hst. simpl. split; [reflexivity|]. right.
    split; [left; reflexivity|]. split; [| reflexivity].
    rewrite lookup_insert_ne by discriminate. apply lookup_empty.
Qed.

(** X12. A call of the callback returns unless [req.query.code] is an array
    or an object.  When it returns, the response is a 302 in one of two
    ways: to [/?auth=success] with the session cookie, and then an
    authenticated session is stored under the identifier of the cookie; or
    to [/?error=no_auth_code] or [/?error=auth_failed] without any cookie,
    and then the session store is what it was.  When [req.query.code] is an
    array or an object the call throws [authCode.substring is not a
    function]: the handler has sent nothing, logged nothing, made no
    outbound call and left the session store as it was. *)
Theorem callback_outcomes keycloak env a w :
  let sid := callbackSessionId env w
               (mkRequest (arr_cookie a) (arr_authorization a) None) in
  match callbackCall keycloak env a w with
  | Returned run =>
      arr_code a <> QStructured
      /\ statusCode (response run) = 302
      /\ (sent (response run) = Redirected "/?auth=success"
          /\ headers (response run) !! "Set-Cookie"
             = Some ("sessionId=" +:+ sid +:+ "; HttpOnly; Path=/; Max-Age=86400")
          /\ active (store (final run)) sid = true
          \/ (sent (response run) = Redirected "/?error=no_auth_code"
              \/ sent (response run) = Redirected "/?error=auth_failed")
             /\ headers (response run) !! "Set-Cookie" = None
             /\ store (final run) = store w)
  | Threw run message =>
      arr_code a = QStructured
      /\ message = "authCode.substring is not a function"
      /\ response run = freshResponse
      /\ store (final run) = store w
      /\ logs (final run) = logs w
      /\ Forall (fun st => writesStore (act st) = false /\ outbound (act st) = None)
           (trace run)
  end.
Proof.
  intros sid. unfold callbackCall.
  destruct (arr_code a) as [| code |] eqn:Hq.
  - split; [discriminate |].
    apply (callback_run_outcomes keycloak env
             (mkRequest (arr_cookie a) (arr_authorization a) None) w).
  - split; [discriminate |].
    apply (callback_run_outcomes keycloak env
             (mkRequest (arr_cookie a) (arr_authorization a) (Some code)) w).
  - split; [reflexivity |]. split; [reflexivity |].
    unfold handle, callbackSession.
    generalize (getSessionId (mkRequest (arr_cookie a) (arr_authorization a) None)) as sid0.
    intros sid0.
    destruct (String.eqb sid0 "default"); run; repeat split; repeat constructor.
Qed.

(** Three arrivals at a server that knows session [S]: a repeated [code]
    parameter, a code the provider takes, and no code. *)
Lemma callback_outcomes_witness :
  let env := providerEnv allTokens joao in
  (exists run, callbackCall defaultConfig env (mkArrival (Some "sessionId=S") None QStructured)
                 loggedInWorld
               = Threw run "authCode.substring is not a function"
               /\ sent (response run) = NotSent
               /\ final run = loggedInWorld)
  /\ (exists run, callbackCall defaultConfig env
                    (mkArrival (Some "sessionId=T") None (QString "abc")) loggedInWorld
                  = Returned run
                  /\ sent (response run) = Redirected "/?auth=success"
                  /\ headers (response run) !! "Set-Cookie"
                     = Some "sessionId=T; HttpOnly; Path=/; Max-Age=86400"
                  /\ active (store (final run)) "T" = true)
  /\ (exists run, callbackCall defaultConfig env
                    (mkArrival (Some "sessionId=T") None QMissing) loggedInWorld
                  = Returned run
                  /\ sent (response run) = Redirected "/?error=no_auth_code"
                  /\ store (final run) = store loggedInWorld).
Proof.
  intros env.
  pose proof (callback_outcomes defaultConfig env
                (mkArrival (Some "sessionId=S") None QStructured) loggedInWorld) as H1.
  pose proof (callback_outcomes defaultConfig env
                (mkArrival (Some "sessionId=T") None (QString "abc")) loggedInWorld) as H2.
  pose proof (callback_outcomes defaultConfig env
                (mkArrival (Some "sessionId=T") None QMissing) loggedInWorld) as H3.
  cbv zeta in H1, H2, H3.
  split; [| split].
  - destruct (callbackCall defaultConfig env
                (mkArrival (Some "sessionId=S") None QStructured) loggedInWorld)
      as [run | run message] eqn:Hcall; [discriminate Hcall |].
    destruct H1 as (_ & -> & Hres & _).
    exists run. split; [reflexivity |]. split; [rewrite Hres; reflexivity |].
    injection Hcall as <-. reflexivity.
  - destruct (callbackCall defaultConfig env
                (mkArrival (Some "sessionId=T") None (QString "abc")) loggedInWorld)
      as [run | run message] eqn:Hcall; [| discriminate Hcall].
    destruct H2 as (_ & _ & [(Hsent & Hcookie & Hact) | ([Hsent | Hsent] & _)]).
    + exists run. split; [reflexivity |]. split; [exact Hsent |].
      split; [exact Hcookie | exact Hact].
    + exfalso. injection Hcall as <-. discriminate Hsent.
    + exfalso. injection Hcall as <-. discriminate Hsent.
  - destruct (callbackCall defaultConfig env
                (mkArrival (Some "sessionId=T") None QMissing) loggedInWorld)
      as [run | run message] eqn:Hcall; [| discriminate Hcall].
    destruct H3 as (_ & _ & [(Hsent & _) | ([Hsent | Hsent] & _ & Hst)]).
    + exfalso. injection Hcall as <-. discriminate Hsent.
    + exists run. split; [reflexivity |]. split; [exact Hsent | exact Hst].
    + exfalso. injection Hcall as <-. discriminate Hsent.
Defined.

(** X13. The only outbound calls the four handlers make are those of the
    callback: the POST to [<endpoint>/protocol/openid-connect/token] of the
    form with [grant_type=authorization_code], the client id and secret, the
    code of the request and the redirect URI; and, only after that call was
    fulfilled with a body that is not [null], the GET of
    [<endpoint>/protocol/openid-connect/userinfo] with the header
    [Authorization: Bearer <access_token of that body>]. *)
Theorem outbound_calls keycloak env leg req w st rq :
  In st (trace (handle env (handler keycloak leg req) w)) ->
  outbound (act st) = Some rq ->
  leg = LegB
  /\ exists code,
       query_code req = Some code /\ code <> ""
       /\ let post :=
            mkHttp POST (endpoint keycloak +:+ "/protocol/openid-connect/token")
              [("Content-Type", "application/x-www-form-urlencoded")]
              [("grant_type", "authorization_code");
               ("client_id", clientId keycloak);
               ("client_secret", clientSecret keycloak);
               ("code", code);
               ("redirect_uri", redirectUri keycloak)] in
          (rq = post
           \/ exists data,
                axios (http env post) = Fulfilled data
                /\ data <> Null
                /\ rq = mkHttp GET (endpoint keycloak +:+ "/protocol/openid-connect/userinfo")
                          [("Authorization",
                            "Bearer " +:+ Js.template (member data "access_token"))]
                          []).
Proof.
  intros Hin Hout. destruct leg; simpl handler in Hin.
  - exfalso. simpl in Hin. each_step Hin; discriminate Hout.
  - split; [reflexivity|].
    unfold handle, callback, callbackSession, exchangeFailed in Hin. revert Hin.
    generalize (getSessionId req) as sid0. intros sid0.
    destruct (query_code req) as [code|] eqn:Hq.
    + destruct (String.eqb_spec code "") as [-> | Hne].
      * destruct (String.eqb sid0 "default"); run; intros Hin;
          each_step Hin; discriminate Hout.
      * rewrite (truthy_Some code Hne). exists code.
        split; [reflexivity|]. split; [exact Hne|]. cbv zeta.
        change (mkHttp POST _ _ _) with (tokenRequest keycloak code).
        revert Hin.
        destruct (String.eqb sid0 "default"); run;
          (destruct (axios (http env (tokenRequest keycloak code)))
             as [[| | members] | e] eqn:Htok; run;
           try (destruct (axios (http env (userInfoRequest keycloak _)))
                  as [[| | claims] | e]; run));
          intros Hin; each_step Hin; try discriminate Hout;
          simpl in Hout; injection Hout as <-;
          first [left; reflexivity
                | right; eexists; split; [reflexivity |];
                  split; [discriminate | reflexivity]].
    + destruct (String.eqb sid0 "default"); run; intros Hin;
        each_step Hin; discriminate Hout.
  - exfalso. unfold handle, status in Hin. revert Hin.
    generalize (getSessionId req) as sid. intros sid. run.
    destruct (sessions (store w) !! sid) as [l|]; run;
      [destruct (isAuthenticated (deref (store w) l)); [destruct (userInfo _)|]; run |];
      intros Hin; each_step Hin; discriminate Hout.
  - exfalso.
    assert (Hnone : Forall (fun st => outbound (act st) = None)
                      (trace (handle env (logout keycloak req) w))).
    { destruct (active (store w) (getSessionId req)) eqn:Hact.
      - destruct (logout_run_active keycloak env req w Hact) as (l & _ & Hrun).
        apply Hrun.
      - apply (logout_run_inactive keycloak env req w Hact). }
    rewrite Forall_forall in Hnone. rewrite (Hnone st) in Hout; [discriminate|].
    apply list_elem_of_In. exact Hin.
Qed.

(** The two calls of scenario 1, as they leave the server. *)
Lemma outbound_calls_witness :
  let env := providerEnv allTokens joao in
  let req := mkRequest (Some "sessionId=S") None (Some "abc") in
  let run := handle env (handler defaultConfig LegB req) emptyWorld in
  let post :=
    mkHttp POST
      "https://auth-dev.curriculobe.com.br/realms/bestema-dev/protocol/openid-connect/token"
      [("Content-Type", "application/x-www-form-urlencoded")]
      [("grant_type", "authorization_code"); ("client_id", "");
       ("client_secret", ""); ("code", "abc");
       ("redirect_uri", "http://localhost:3000/callback")] in
  let get :=
    mkHttp GET
      "https://auth-dev.curriculobe.com.br/realms/bestema-dev/protocol/openid-connect/userinfo"
      [("Authorization", "Bearer AT")] [] in
  omap (fun st => outbound (act st)) (trace run) = [post; get]
  /\ forall st rq, In st (trace run) -> outbound (act st) = Some rq ->
       rq = post \/ rq = get.
Proof.
  intros env req run post get.
  split; [vm_compute; reflexivity |].
  intros st rq Hin Hout.
  destruct (outbound_calls defaultConfig env LegB req emptyWorld st rq Hin Hout)
    as (_ & code & Hq & _ & Hrq).
  injection Hq as <-. cbv zeta in Hrq.
  destruct Hrq as [-> | (data & Htok & _ & ->)]; [left; reflexivity |].
  right. injection Htok as <-. reflexivity.
Defined.

(** The store after any callback, at the callback's identifier. *)
Lemma callback_final_store_at keycloak env req w :
  let run := handle env (callback keycloak req) w in
  store (final run) = store w
  \/ exists u,
       store (final run)
       = mkStore (<[callbackSessionId env w req := fresh (dom (heap (store w)))]>
                    (sessions (store w)))
           (<[fresh (dom (heap (store w))) := u]> (heap (store w))).
Proof.
  intros run.
  destruct (callback_failure_run keycloak env req w) as [Hnone Hfail].
  fold run in Hnone, Hfail.
  destruct (Js.truthy (query_code req)) eqn:Hcode.
  - destruct (query_code req) as [code|] eqn:Hq; [| discriminate Hcode].
    assert (Hne : code <> "") by (intros ->; discriminate Hcode).
    destruct (axios (http env (tokenRequest keycloak code))) as [data | e] eqn:Htok.
    + destruct (Data_eq_dec data Null) as [-> | Hdata].
      * left. apply (Hfail code eq_refl Hne). right. exact Htok.
      * right. eexists.
        apply (callback_success_run keycloak env req w code data Hq Hne Htok Hdata).
    + left. apply (Hfail code eq_refl Hne). left. exists e. exact Htok.
  - left. apply (Hnone eq_refl).
Qed.

(** X14. A callback changes no session but its own: in a store whose
    entries all refer to allocated objects, as in every store the server
    reaches, what is stored under any other identifier is the same before
    and after. *)
Theorem callback_keeps_other_sessions keycloak env req w id :
  (forall i l, sessions (store w) !! i = Some l -> is_Some (heap (store w) !! l)) ->
  id <> callbackSessionId env w req ->
  session_of (store (final (handle env (callback keycloak req) w))) id
  = session_of (store w) id.
Proof.
  intros Hwf Hid.
  destruct (callback_final_store_at keycloak env req w) as [-> | [u ->]];
    [reflexivity|].
  unfold session_of. simpl. rewrite lookup_insert_ne by congruence.
  destruct (sessions (store w) !! id) as [l|] eqn:Hl; [| reflexivity]. simpl.
  apply lookup_insert_ne. intros <-.
  apply (is_fresh (dom (heap (store w)))). apply elem_of_dom. exact (Hwf id _ Hl).
Qed.

Lemma callback_keeps_other_sessions_witness :
  let env := providerEnv allTokens joao in
  let req := mkRequest (Some "sessionId=T") None (Some "xyz") in
  (forall i l, sessions (store loggedInWorld) !! i = Some l ->
     is_Some (heap (store loggedInWorld) !! l))
  /\ session_of (store (final (handle env (callback defaultConfig req) loggedInWorld))) "S"
     = Some (mkSession (Some "IT") (Some "AT") (Some "RT") (Some joao) true).
Proof.
  intros env req.
  assert (Hwf : forall i l, sessions (store loggedInWorld) !! i = Some l ->
                  is_Some (heap (store loggedInWorld) !! l)).
  { intros i l Hl.
    assert (Hreach : reachable defaultConfig loggedInWorld).
    { apply (reach_handle defaultConfig emptyWorld _ LegB).
      apply reach_start. reflexivity. }
    destruct (reachable_entries_authenticated _ _ Hreach i l Hl) as (u & Hu & _).
    exists u. exact Hu. }
  split; [exact Hwf|].
  rewrite (callback_keeps_other_sessions defaultConfig env req loggedInWorld "S" Hwf).
  - vm_compute. reflexivity.
  - vm_compute. discriminate.
Defined.

(** X15. A logout changes no session but its own: what is stored under
    any other identifier is the same before and after, and no object of the
    heap changes. *)
Theorem logout_keeps_other_sessions keycloak env req w id :
  id <> getSessionId req ->
  let run := handle env (logout keycloak req) w in
  session_of (store (final run)) id = session_of (store w) id
  /\ heap (store (final run)) = heap (store w).
Proof.
  intros Hid run. unfold run.
  destruct (active (store w) (getSessionId req)) eqn:Hact.
  - destruct (logout_run_active keycloak env req w Hact) as (l & _ & -> & _).
    unfold session_of. simpl. rewrite lookup_delete_ne by congruence.
    split; reflexivity.
  - destruct (logout_run_inactive keycloak env req w Hact) as (-> & _).
    split; reflexivity.
Qed.

Lemma logout_keeps_other_sessions_witness :
  let req := mkRequest (Some "sessionId=T") None None in
  "S" <> getSessionId req
  /\ session_of (store (final (handle offlineEnv (logout defaultConfig req) loggedInWorld))) "S"
     = Some (mkSession (Some "IT") (Some "AT") (Some "RT") (Some joao) true).
Proof.
  intros req.
  assert (Hid : "S" <> getSessionId req) by (vm_compute; discriminate).
  split; [exact Hid|].
  destruct (logout_keeps_other_sessions defaultConfig offlineEnv req loggedInWorld "S" Hid)
    as [-> _].
  vm_compute. reflexivity.
Defined.

Lemma logout_leaves_inactive keycloak env req w :
  active (store (final (handle env (logout keycloak req) w))) (getSessionId req) = false.
Proof.
  destruct (active (store w) (getSessionId req)) eqn:Hact.
  - destruct (logout_run_active keycloak env req w Hact) as (l & _ & -> & _).
    rewrite active_lookup. simpl. rewrite lookup_delete_eq. reflexivity.
  - destruct (logout_run_inactive keycloak env req w Hact) as (-> & _). exact Hact.
Qed.

(** X16. Logging out again is harmless: after a logout request, whatever
    the store held, the same request is answered with a 302 to
    [/logout-success] and no cookie, and changes nothing in the store. *)
Theorem logout_twice keycloak env env' req w :
  let run1 := handle env (logout keycloak req) w in
  let run2 := handle env' (logout keycloak req) (final run1) in
  sent (response run2) = Redirected "/logout-success"
  /\ statusCode (response run2) = 302
  /\ headers (response run2) !! "Set-Cookie" = None
  /\ store (final run2) = store (final run1).
Proof.
  intros run1 run2.
  destruct (logout_run_inactive keycloak env' req (final run1)
              (logout_leaves_inactive keycloak env req w)) as (Hst & Hres & _).
  fold run2 in Hst, Hres. rewrite Hres, Hst. simpl.
  repeat split; try (rewrite lookup_insert_ne by discriminate; apply lookup_empty).
Qed.

(** X17. After a logout the status is "Not Authenticated": a status
    request that resolves to the identifier of the logout request gets a
    payload without user information, whatever the store held before. *)
Theorem logout_then_status keycloak env env' req req' w :
  getSessionId req' = getSessionId req ->
  let w1 := final (handle env (logout keycloak req) w) in
  exists payload,
    sent (response (handle env' (status req') w1)) = Json payload
    /\ p_user payload = "❌ Not Authenticated"
    /\ p_userInfo payload = None.
Proof.
  intros Hsame w1.
  pose proof (logout_leaves_inactive keycloak env req w) as Hact.
  fold w1 in Hact. rewrite <- Hsame, active_lookup in Hact.
  eexists. split; [apply status_payload|]. simpl.
  destruct (sessions (store w1) !! getSessionId req') as [l|];
    [rewrite Hact |]; split; reflexivity.
Qed.

Lemma logout_then_status_witness :
  let req := mkRequest (Some "sessionId=S") None None in
  let w1 := final (handle offlineEnv (logout defaultConfig req) loggedInWorld) in
  getSessionId req = getSessionId req
  /\ exists payload,
       sent (response (handle offlineEnv (status req) w1)) = Json payload
       /\ p_user payload = "❌ Not Authenticated".
Proof.
  intros req w1. split; [reflexivity|].
  destruct (logout_then_status defaultConfig offlineEnv offlineEnv req req
              loggedInWorld eq_refl) as (payload & Hsent & Huser & _).
  exists payload. split; assumption.
Defined.

(** X18. After a successful callback the status is "Authenticated": when
    the token exchange is fulfilled with a body that is not [null] and the
    userinfo fetch with a claims object, and the callback's identifier has
    no [;], no [=] and no white space at its end,
    the status request that carries the cookie [sessionId=<id>] gets the
    claims of the userinfo response as user information. *)
Theorem callback_then_status keycloak env env' req w code data (claims : Body) a q :
  query_code req = Some code ->
  code <> "" ->
  axios (http env (tokenRequest keycloak code)) = Fulfilled data ->
  data <> Null ->
  axios (http env (userInfoRequest keycloak (member data "access_token")))
  = Fulfilled (Object claims) ->
  let sid := callbackSessionId env w req in
  (forall c, In c (list_ascii_of_string sid) -> c <> ";"%char /\ c <> "="%char) ->
  Js.trimEnd sid = sid ->
  let w1 := final (handle env (callback keycloak req) w) in
  let next := mkRequest (Some ("sessionId=" +:+ sid)) a q in
  exists payload,
    sent (response (handle env' (status next) w1)) = Json payload
    /\ p_sessionId payload = sid
    /\ p_userInfo payload = Some claims
    /\ p_user payload
       = "🟢 Authenticated ("
         +:+ Js.or_else (Js.or (claims !! "preferred_username") (claims !! "email")) "User"
         +:+ ")".
Proof.
  intros Hcode Hne Htok Hdata Hui sid Hclean Htrim w1 next.
  destruct (callback_success_run keycloak env req w code data Hcode Hne Htok Hdata)
    as [Hst _].
  fold sid in Hst. fold w1 in Hst. rewrite Hui in Hst.
  assert (Hnext : getSessionId next = sid)
    by exact (getSessionId_of_cookie sid a q Hclean Htrim).
  eexists. split; [apply status_payload|]. simpl.
  rewrite Hnext, Hst. simpl. rewrite lookup_insert_eq.
  unfold deref. simpl. rewrite lookup_insert_eq. simpl.
  repeat split.
Qed.

Lemma callback_then_status_witness :
  let env := providerEnv allTokens joao in
  let req := mkRequest None None (Some "abc") in
  let w1 := final (handle env (callback defaultConfig req) emptyWorld) in
  let next := mkRequest (Some "sessionId=4fzyo82mvyr4fzyo82mvyr") None None in
  callbackSessionId env emptyWorld req = "4fzyo82mvyr4fzyo82mvyr"
  /\ exists payload,
       sent (response (handle offlineEnv (status next) w1)) = Json payload
       /\ p_userInfo payload = Some joao
       /\ p_user payload = "🟢 Authenticated (joao)".
Proof.
  intros env req w1 next. split; [reflexivity|].
  assert (Hclean : forall c,
            In c (list_ascii_of_string (callbackSessionId env emptyWorld req)) ->
            c <> ";"%char /\ c <> "="%char).
  { intros c Hc. vm_compute in Hc.
    repeat (destruct Hc as [<- | Hc]; [split; discriminate|]). destruct Hc. }
  destruct (callback_then_status defaultConfig env offlineEnv req emptyWorld
              "abc" (Object allTokens) joao None None eq_refl ltac:(discriminate)
              eq_refl ltac:(discriminate) eq_refl Hclean eq_refl)
    as (payload & Hsent & _ & Hinfo & Huser).
  exists payload. split; [exact Hsent|]. split; [exact Hinfo | exact Huser].
Defined.

(* ===================================================================== *)
(** * The configuration *)
(* ===================================================================== *)

(** X19. Whatever the environment holds, the endpoint, the two redirect
    URIs and the scope of the configuration are not empty; a variable set to
    the empty string counts as not set; and a variable set to a non-empty
    string is taken as it is. *)
Theorem keycloakConfig_fallbacks (penv : string -> option string) :
  let c := keycloakConfig penv in
  (endpoint c <> "" /\ redirectUri c <> "" /\ logoutRedirectUri c <> "" /\ scope c <> "")
  /\ keycloakConfig (fun k => if Js.truthy (penv k) then penv k else None) = c
  /\ (forall v, v <> "" ->
        (penv "KEYCLOAK_ENDPOINT" = Some v -> endpoint c = v)
        /\ (penv "KEYCLOAK_CLIENT_ID" = Some v -> clientId c = v)
        /\ (penv "KEYCLOAK_CLIENT_SECRET" = Some v -> clientSecret c = v)
        /\ (penv "KEYCLOAK_REDIRECT_URI" = Some v -> redirectUri c = v)
        /\ (penv "KEYCLOAK_LOGOUT_REDIRECT_URI" = Some v -> logoutRedirectUri c = v)
        /\ (penv "KEYCLOAK_SCOPE" = Some v -> scope c = v)).
Proof.
  assert (Hor : forall o d, d <> "" -> Js.or_else o d <> "").
  { intros [v|] d Hd; simpl; [| exact Hd].
    destruct (String.eqb_spec v ""); [exact Hd | assumption]. }
  assert (Hsame : forall o d,
            Js.or_else (if Js.truthy o then o else None) d = Js.or_else o d).
  { intros [v|] d; simpl; [| reflexivity].
    destruct (String.eqb_spec v "") as [-> | Hv]; simpl; [reflexivity|].
    destruct (String.eqb_spec v ""); [contradiction | reflexivity]. }
  assert (Hset : forall v d, v <> "" -> Js.or_else (Some v) d = v).
  { intros v d Hv. simpl. destruct (String.eqb_spec v ""); [contradiction | reflexivity]. }
  intros c. split; [| split].
  - unfold c, keycloakConfig. simpl. repeat split; apply Hor; discriminate.
  - unfold c, keycloakConfig. rewrite !Hsame. reflexivity.
  - intros v Hv. unfold c, keycloakConfig. simpl.
    repeat split; intros ->; apply Hset; exact Hv.
Qed.

(* ===================================================================== *)
(** * The log channel *)
(* ===================================================================== *)

Lemma framesOf_app c (a b : list (nat * LogEntry)) :
  framesOf c (a ++ b) = (framesOf c a ++ framesOf c b)%list.
Proof. unfold framesOf. now rewrite List.filter_app, List.map_app. Qed.

Lemma framesOf_replay c res (l : list LogEntry) :
  framesOf c (List.map (fun log => (res, log)) l) = if Nat.eqb res c then l else [].
Proof.
  unfold framesOf. induction l as [|x l IH]; simpl; [destruct (Nat.eqb res c); reflexivity|].
  destruct (Nat.eqb res c) eqn:Hc; simpl; [f_equal|]; exact IH.
Qed.

Lemma framesOf_stranger c (w : list (nat * LogEntry)) :
  (forall c' e, In (c', e) w -> c' <> c) -> framesOf c w = [].
Proof.
  unfold framesOf. induction w as [|[c' e] w IH]; intros Hw; [reflexivity|].
  simpl. destruct (Nat.eqb_spec c' c) as [-> | _].
  - exfalso. apply (Hw c e); [left; reflexivity | reflexivity].
  - apply IH. intros c'' e' Hin. apply (Hw c'' e'). right. exact Hin.
Qed.

(** What one broadcast sends to one client. *)
Lemma framesOf_broadcast host c e (clients : list nat) :
  List.NoDup clients ->
  framesOf c (broadcast host e clients)
  = if writable host c && existsb (Nat.eqb c) clients then [e] else [].
Proof.
  unfold broadcast. induction clients as [|d clients IH]; intros Hnd.
  - simpl. now rewrite andb_false_r.
  - apply List.NoDup_cons_iff in Hnd as [Hd Hnd]. specialize (IH Hnd). simpl.
    destruct (Nat.eqb_spec c d) as [<- | Hcd].
    + assert (Hno : existsb (Nat.eqb c) clients = false).
      { apply not_true_is_false. intros Hex. apply existsb_exists in Hex as (x & Hx & Heq).
        apply Nat.eqb_eq in Heq. subst x. exact (Hd Hx). }
      rewrite Hno, andb_false_r in IH. rewrite orb_true_l, andb_true_r.
      destruct (writable host c); simpl.
      * unfold framesOf in *. simpl. rewrite Nat.eqb_refl. simpl. now rewrite IH.
      * exact IH.
    + rewrite orb_false_l. destruct (writable host d); simpl; [| exact IH].
      unfold framesOf in *. simpl.
      destruct (Nat.eqb_spec d c) as [-> | _]; [contradiction | exact IH].
Qed.

Lemma framesOf_broadcasts host c (clients : list nat) (entries : list LogEntry) :
  List.NoDup clients ->
  framesOf c (flat_map (fun e => broadcast host e clients) entries)
  = if writable host c && existsb (Nat.eqb c) clients then entries else [].
Proof.
  intros Hnd. induction entries as [|e entries IH]; simpl.
  - destruct (_ && _); reflexivity.
  - rewrite framesOf_app, IH, (framesOf_broadcast host c e clients Hnd).
    destruct (_ && _); reflexivity.
Qed.

Lemma publish_all host (entries : list LogEntry) s :
  let s' := fold_left (fun s logEntry => publish host logEntry s) entries s in
  world s' = world s /\ logClients s' = logClients s /\ accepted s' = accepted s
  /\ wire s' = (wire s ++ flat_map (fun e => broadcast host e (logClients s)) entries)%list.
Proof.
  revert s. induction entries as [|e entries IH]; intros s; simpl.
  - now rewrite app_nil_r.
  - destruct (IH (publish host e s)) as (H1 & H2 & H3 & H4).
    rewrite H1, H2, H3, H4. simpl. now rewrite <- app_assoc.
Qed.

(** What handling one event does to the process and to the log channel:
    the client list changes first, a new client is sent the buffer, then
    the entries of the event go to the buffer and to the clients. *)
Lemma serve_shape keycloak host env i s :
  let s' := fst (serve keycloak host env i s) in
  exists entries,
    logs (world s')
    = fold_left (fun b x => sliceLast 100 (b ++ [x])) entries (logs (world s))
    /\ store (world s')
       = match i with
         | Auth leg req =>
             store (final (handle env (handler keycloak leg req) (world s)))
         | _ => store (world s)
         end
    /\ logClients s'
       = match i with
         | ApiLogs => (logClients s ++ [accepted s])%list
         | Closed res =>
             List.filter (fun client => negb (Nat.eqb client res)) (logClients s)
         | _ => logClients s
         end
    /\ accepted s' = match i with ApiLogs => S (accepted s) | _ => accepted s end
    /\ wire s'
       = ((wire s ++ match i with
                     | ApiLogs => List.map (fun log => (accepted s, log)) (logs (world s))
                     | _ => []
                     end)
          ++ flat_map (fun e => broadcast host e (logClients s')) entries)%list.
Proof.
  destruct i as [leg req | | | res | | msg]; simpl.
  - match goal with
    | |- context [fold_left _ ?es ?s0] =>
        destruct (publish_all host es s0) as (H1 & H2 & H3 & H4); exists es
    end.
    rewrite H1, H2, H3, H4. simpl. rewrite app_nil_r.
    repeat split. apply exec_logs.
  - eexists [_]. simpl. rewrite addLog_sliceLast, !app_nil_r. repeat split.
  - eexists [_]. simpl. rewrite addLog_sliceLast, !app_nil_r. repeat split.
  - eexists [_]. simpl. rewrite addLog_sliceLast, !app_nil_r. repeat split.
  - eexists [_]. simpl. rewrite addLog_sliceLast, !app_nil_r. repeat split.
  - eexists [_]. simpl. rewrite addLog_sliceLast, !app_nil_r. repeat split.
Qed.

Lemma sliceLast_app {A} (n : nat) (l more : list A) :
  sliceLast n (sliceLast n l ++ more) = sliceLast n (l ++ more).
Proof.
  rewrite <- (sliceLast_app_entries n l more).
  rewrite <- (sliceLast_app_entries n (sliceLast n l) more).
  rewrite (sliceLast_short n (sliceLast n l)); [reflexivity|].
  rewrite sliceLast_length. lia.
Qed.

Lemma entries_into_logs (l entries : list LogEntry) :
  (List.length l <= 100)%nat ->
  fold_left (fun b x => sliceLast 100 (b ++ [x])) entries l
  = sliceLast 100 (l ++ entries).
Proof.
  intros Hl. rewrite <- (sliceLast_short 100 l Hl) at 1.
  apply sliceLast_app_entries.
Qed.

Lemma broadcast_to host e (clients : list nat) c e' :
  In (c, e') (broadcast host e clients) -> In c clients.
Proof.
  unfold broadcast. intros Hin. apply in_map_iff in Hin as (d & Hd & Hin).
  injection Hd as -> _. apply filter_In in Hin. tauto.
Qed.

Lemma broadcasts_to host (entries : list LogEntry) (clients : list nat) c e' :
  In (c, e') (flat_map (fun e => broadcast host e clients) entries) -> In c clients.
Proof.
  intros Hin. apply in_flat_map in Hin as (e & _ & Hin).
  exact (broadcast_to host e clients c e' Hin).
Qed.

Lemma serve_wellConnected keycloak host env i s :
  wellConnected s -> wellConnected (fst (serve keycloak host env i s)).
Proof.
  intros (Hnd & Hcl & Hwire).
  destruct (serve_shape keycloak host env i s) as (entries & _ & _ & Hc & Ha & Hw).
  cbv zeta in *. unfold wellConnected. rewrite Hw, Ha.
  set (s' := fst (serve keycloak host env i s)) in *.
  assert (Hcl' : forall c, In c (logClients s') ->
                   (c < match i with ApiLogs => S (accepted s) | _ => accepted s end)%nat).
  { intros c Hin. rewrite Hc in Hin.
    destruct i; try exact (Hcl c Hin).
    - apply in_app_or in Hin as [Hin | [<- | []]]; [specialize (Hcl c Hin)|]; lia.
    - apply filter_In in Hin as [Hin _]. exact (Hcl c Hin). }
  split; [| split; [exact Hcl'|]].
  - rewrite Hc. destruct i; try exact Hnd.
    + apply List.NoDup_app; [exact Hnd | repeat constructor; intros [] |].
      intros c Hin [<- | []]. specialize (Hcl _ Hin). lia.
    + apply List.NoDup_filter. exact Hnd.
  - intros c e Hin. apply in_app_or in Hin as [Hin | Hin];
      [| exact (Hcl' c (broadcasts_to host entries _ c e Hin))].
    apply in_app_or in Hin as [Hin | Hin].
    + specialize (Hwire c e Hin). destruct i; lia.
    + destruct i; try destruct Hin.
      apply in_map_iff in Hin as (x & Hx & _). injection Hx as <- _. lia.
Qed.

Lemma serve_logs_bounded keycloak host env i s :
  (List.length (logs (world s)) <= 100)%nat ->
  (List.length (logs (world (fst (serve keycloak host env i s)))) <= 100)%nat.
Proof.
  intros Hl.
  destruct (serve_shape keycloak host env i s) as (entries & Hlogs & _).
  cbv zeta in Hlogs. rewrite Hlogs, (entries_into_logs _ _ Hl), sliceLast_length. lia.
Qed.

Lemma serve_entries_authenticated keycloak host env i s :
  authenticatedEntries (store (world s)) ->
  authenticatedEntries (store (world (fst (serve keycloak host env i s)))).
Proof.
  intros Hinv.
  destruct (serve_shape keycloak host env i s) as (entries & _ & Hst & _).
  cbv zeta in Hst. rewrite Hst.
  destruct i; try exact Hinv. now apply handler_keeps_entries_authenticated.
Qed.

(** X20. Whatever reaches the server after its start, in any order: every
    entry of the session store refers to an authenticated session, the log
    buffer holds at most 100 entries, no log client is listed twice, and
    every client listed or written to is a connection that was accepted. *)
Theorem server_invariants keycloak (evs : list (Host * Env * Incoming)) :
  let s := serveAll keycloak evs bootServer in
  authenticatedEntries (store (world s))
  /\ (List.length (logs (world s)) <= 100)%nat
  /\ wellConnected s.
Proof.
  assert (Hgen : forall s0,
            authenticatedEntries (store (world s0)) ->
            (List.length (logs (world s0)) <= 100)%nat ->
            wellConnected s0 ->
            let s := serveAll keycloak evs s0 in
            authenticatedEntries (store (world s))
            /\ (List.length (logs (world s)) <= 100)%nat
            /\ wellConnected s).
  { induction evs as [|[[host env] i] evs IH]; intros s0 H1 H2 H3; simpl.
    - repeat split; assumption || apply H3.
    - apply IH; [now apply serve_entries_authenticated
                | now apply serve_logs_bounded | now apply serve_wellConnected]. }
  apply Hgen.
  - intros id l Hl. simpl in Hl. rewrite lookup_empty in Hl. discriminate.
  - simpl. lia.
  - repeat split; [constructor | intros c [] | intros c e []].
Qed.

Lemma existsb_member (c : nat) (clients : list nat) :
  In c clients -> existsb (Nat.eqb c) clients = true.
Proof.
  intros Hin. apply existsb_exists. exists c. split; [exact Hin | apply Nat.eqb_refl].
Qed.

(** One event keeps a client that is written to without fail in step with
    the buffer. *)
Lemma serve_in_sync keycloak host env i s c :
  wellConnected s ->
  (List.length (logs (world s)) <= 100)%nat ->
  writable host c = true ->
  (In c (logClients s) -> logs (world s) = sliceLast 100 (framesOf c (wire s))) ->
  In c (logClients (fst (serve keycloak host env i s))) ->
  logs (world (fst (serve keycloak host env i s)))
  = sliceLast 100 (framesOf c (wire (fst (serve keycloak host env i s)))).
Proof.
  intros Hwc Hl Hwr Hsync Hin.
  pose proof (serve_wellConnected keycloak host env i s Hwc) as (Hnd' & _ & _).
  destruct Hwc as (Hnd & Hcl & Hwire).
  destruct (serve_shape keycloak host env i s) as (entries & Hlogs & _ & Hc & _ & Hw).
  cbv zeta in *. set (s' := fst (serve keycloak host env i s)) in *.
  rewrite Hlogs, (entries_into_logs _ _ Hl), Hw, !framesOf_app.
  rewrite (framesOf_broadcasts host c _ entries Hnd'), Hwr, (existsb_member c _ Hin).
  simpl andb. cbv iota.
  assert (Hold : In c (logClients s) ->
                 framesOf c match i with
                            | ApiLogs => List.map (fun log => (accepted s, log)) (logs (world s))
                            | _ => []
                            end = [] ->
                 sliceLast 100 (logs (world s) ++ entries)
                 = sliceLast 100 ((framesOf c (wire s) ++ framesOf c match i with
                            | ApiLogs => List.map (fun log => (accepted s, log)) (logs (world s))
                            | _ => []
                            end) ++ entries)).
  { intros Hc0 ->. rewrite app_nil_r, (Hsync Hc0). apply sliceLast_app. }
  rewrite Hc in Hin. destruct i; try (apply Hold; [exact Hin | reflexivity]).
  - apply in_app_or in Hin as [Hin | [<- | []]].
    + apply Hold; [exact Hin|]. rewrite framesOf_replay.
      destruct (Nat.eqb_spec (accepted s) c) as [<- | _]; [| reflexivity].
      specialize (Hcl _ Hin). lia.
    + rewrite framesOf_replay, Nat.eqb_refl, framesOf_stranger; [reflexivity|].
      intros c' e Hin' ->. specialize (Hwire _ _ Hin'). lia.
  - apply filter_In in Hin as [Hin _]. apply Hold; [exact Hin | reflexivity].
Qed.

(** X21. A connected log client misses nothing: after any sequence of
    events from the start of the server in which the writes to a client
    go through, the log buffer is the last 100 of the frames that client
    was sent, as long as it is connected. *)
Theorem connected_client_in_sync keycloak (evs : list (Host * Env * Incoming)) c :
  Forall (fun ev => writable (fst (fst ev)) c = true) evs ->
  let s := serveAll keycloak evs bootServer in
  In c (logClients s) ->
  logs (world s) = sliceLast 100 (framesOf c (wire s)).
Proof.
  intros Hwr.
  assert (Hgen : forall s0,
            wellConnected s0 ->
            (List.length (logs (world s0)) <= 100)%nat ->
            (In c (logClients s0) ->
             logs (world s0) = sliceLast 100 (framesOf c (wire s0))) ->
            let s := serveAll keycloak evs s0 in
            In c (logClients s) ->
            logs (world s) = sliceLast 100 (framesOf c (wire s))).
  { induction Hwr as [|[[host env] i] evs Hc _ IH]; intros s0 H1 H2 H3; simpl.
    - exact H3.
    - apply IH; [now apply serve_wellConnected | now apply serve_logs_bounded |].
      now apply serve_in_sync. }
  apply Hgen.
  - repeat split; [constructor | intros c' [] | intros c' e []].
  - simpl. lia.
  - intros [].
Qed.

Lemma connected_client_in_sync_witness :
  let s := serveAll defaultConfig morning bootServer in
  Forall (fun ev => writable (fst (fst ev)) 1%nat = true) morning
  /\ In 1%nat (logClients s)
  /\ List.length (framesOf 1%nat (wire s)) = 12%nat
  /\ List.map message (logs (world s)) = List.map message (framesOf 1%nat (wire s)).
Proof.
  intros s.
  assert (Hwr : Forall (fun ev => writable (fst (fst ev)) 1%nat = true) morning)
    by (repeat constructor).
  assert (Hin : In 1%nat (logClients s)) by (vm_compute; left; reflexivity).
  split; [exact Hwr|]. split; [exact Hin|]. split; [vm_compute; reflexivity|].
  pose proof (connected_client_in_sync defaultConfig morning 1%nat Hwr Hin) as Heq.
  cbv zeta in Heq. unfold s. rewrite Heq.
  rewrite sliceLast_short; [reflexivity | vm_compute; lia].
Defined.

Lemma serve_not_listed keycloak host env i s c :
  (c < accepted s)%nat ->
  ~ In c (logClients (fst (serve keycloak host env i s))) ->
  framesOf c (wire (fst (serve keycloak host env i s))) = framesOf c (wire s).
Proof.
  intros Hc Hout.
  destruct (serve_shape keycloak host env i s) as (entries & _ & _ & _ & _ & Hw).
  cbv zeta in Hw. rewrite Hw, !framesOf_app.
  rewrite (framesOf_stranger c (flat_map _ entries)).
  - rewrite app_nil_r. destruct i; try apply app_nil_r.
    rewrite framesOf_replay.
    destruct (Nat.eqb_spec (accepted s) c); [lia | apply app_nil_r].
  - intros c' e Hin ->. apply Hout. exact (broadcasts_to host entries _ c e Hin).
Qed.

Lemma serve_stays_out keycloak host env i s c :
  (c < accepted s)%nat ->
  ~ In c (logClients s) ->
  ~ In c (logClients (fst (serve keycloak host env i s)))
  /\ (c < accepted (fst (serve keycloak host env i s)))%nat.
Proof.
  intros Hc Hout.
  destruct (serve_shape keycloak host env i s) as (entries & _ & _ & Hcl & Ha & _).
  cbv zeta in Hcl, Ha. rewrite Hcl, Ha. split; [| destruct i; lia].
  destruct i; try exact Hout.
  - intros Hin. apply in_app_or in Hin as [Hin | [<- | []]]; [exact (Hout Hin) | lia].
  - intros Hin. apply filter_In in Hin as [Hin _]. exact (Hout Hin).
Qed.

(** X22. A client that has closed is written to no more: from the [close]
    event of an accepted connection on, whatever reaches the server
    afterwards, the frames sent to that client are those it had been sent
    before, and it is not in the client list. *)
Theorem closed_client_gets_nothing keycloak host env
    (evs : list (Host * Env * Incoming)) s c :
  (c < accepted s)%nat ->
  let s' := serveAll keycloak ((host, env, Closed c) :: evs) s in
  framesOf c (wire s') = framesOf c (wire s)
  /\ ~ In c (logClients s').
Proof.
  intros Hc. simpl.
  assert (Hout : ~ In c (logClients (onClose host env c s))).
  { simpl. intros Hin. apply filter_In in Hin as [_ Hin].
    rewrite Nat.eqb_refl in Hin. discriminate. }
  assert (H1 : framesOf c (wire (onClose host env c s)) = framesOf c (wire s)).
  { exact (serve_not_listed keycloak host env (Closed c) s c Hc Hout). }
  assert (Hc1 : (c < accepted (onClose host env c s))%nat) by exact Hc.
  rewrite <- H1. revert Hout Hc1. generalize (onClose host env c s) as s1.
  induction evs as [|[[host' env'] i] evs IH]; intros s1 Hout Hc1; simpl.
  - split; [reflexivity | exact Hout].
  - destruct (serve_stays_out keycloak host' env' i s1 c Hc1 Hout) as [Hout' Hc'].
    destruct (IH _ Hout' Hc') as [Hfr Hno].
    split; [| exact Hno].
    rewrite Hfr. exact (serve_not_listed keycloak host' env' i s1 c Hc1 Hout').
Qed.

Lemma closed_client_gets_nothing_witness :
  let s := serveAll defaultConfig (firstn 5 morning) bootServer in
  let s' := serveAll defaultConfig (skipn 5 morning) s in
  (0 < accepted s)%nat
  /\ List.length (framesOf 0%nat (wire s')) = List.length (framesOf 0%nat (wire s))
  /\ List.length (framesOf 1%nat (wire s')) = (3 + List.length (framesOf 1%nat (wire s)))%nat.
Proof.
  intros s s'.
  assert (Hc : (0 < accepted s)%nat) by (vm_compute; lia).
  split; [exact Hc|].
  destruct (closed_client_gets_nothing defaultConfig steadyHost offlineEnv
              (skipn 6 morning) s 0%nat Hc) as [Hfr _].
  split; [| vm_compute; reflexivity].
  change (serveAll defaultConfig ((steadyHost, offlineEnv, Closed 0%nat) :: skipn 6 morning) s)
    with s' in Hfr.
  now rewrite Hfr.
Defined.

(** X23. A client that connects to [/api/logs] is first sent the whole log
    buffer, in order, and then the entry of its own connection, if that
    write goes through; it is added to the end of the client list; and every
    client that was connected is sent that one entry, if its write goes
    through, and nothing else. *)
Theorem apiLogs_replays_buffer host env s :
  wellConnected s ->
  let res := accepted s in
  let connected := mkLog (now env (clk (world s))) "📱 Log client connected" success in
  let s' := fst (apiLogs host env s) in
  framesOf res (wire s')
  = (logs (world s) ++ if writable host res then [connected] else [])%list
  /\ logClients s' = (logClients s ++ [res])%list
  /\ (forall c, In c (logClients s) ->
        framesOf c (wire s')
        = (framesOf c (wire s) ++ if writable host c then [connected] else [])%list)
  /\ snd (apiLogs host env s)
     = EventStream 200
         [("Content-Type", "text/event-stream"); ("Cache-Control", "no-cache");
          ("Connection", "keep-alive"); ("Access-Control-Allow-Origin", "*");
          ("Access-Control-Allow-Headers", "Cache-Control")].
Proof.
  intros (Hnd & Hcl & Hwire) res connected s'.
  assert (Hnd' : List.NoDup (logClients s ++ [res])).
  { apply List.NoDup_app; [exact Hnd | repeat constructor; intros [] |].
    intros c Hin [<- | []]. specialize (Hcl _ Hin). unfold res in Hcl. lia. }
  assert (Hw : wire s' = ((wire s ++ List.map (fun log => (res, log)) (logs (world s)))
                          ++ broadcast host connected (logClients s ++ [res]))%list)
    by reflexivity.
  split; [| split; [reflexivity | split; [| reflexivity]]].
  - rewrite Hw, !framesOf_app, framesOf_replay, Nat.eqb_refl.
    rewrite (framesOf_broadcast host res connected _ Hnd').
    rewrite (existsb_member res) by (apply in_or_app; right; left; reflexivity).
    rewrite andb_true_r, framesOf_stranger; [reflexivity|].
    intros c e Hin ->. specialize (Hwire _ _ Hin). unfold res in Hwire. lia.
  - intros c Hin. rewrite Hw, !framesOf_app, framesOf_replay.
    rewrite (framesOf_broadcast host c connected _ Hnd').
    rewrite (existsb_member c) by (apply in_or_app; left; exact Hin).
    rewrite andb_true_r.
    destruct (Nat.eqb_spec res c) as [<- | _]; [| now rewrite app_nil_r].
    specialize (Hcl _ Hin). unfold res in Hcl. lia.
Qed.

Lemma apiLogs_replays_buffer_witness :
  let s := serveAll defaultConfig (firstn 2 morning) bootServer in
  let s' := fst (apiLogs steadyHost offlineEnv s) in
  wellConnected s
  /\ List.map message (framesOf 1%nat (wire s'))
     = ["📱 Log client connected"; "📱 Main dashboard accessed";
        "📱 Log client connected"]
  /\ logClients s' = [0; 1]%nat.
Proof.
  intros s s'.
  assert (Hwc : wellConnected s).
  { repeat split.
    - vm_compute. constructor; [intros [] | constructor].
    - intros c Hin. vm_compute in Hin. destruct Hin as [<- | []]. vm_compute. lia.
    - intros c e Hin. vm_compute in Hin.
      repeat (destruct Hin as [Heq | Hin]; [injection Heq as <- _; vm_compute; lia|]).
      destruct Hin. }
  split; [exact Hwc|].
  destruct (apiLogs_replays_buffer steadyHost offlineEnv s Hwc) as (Hfr & Hcl & _).
  split; [| exact Hcl].
  change (framesOf (accepted s) (wire (fst (apiLogs steadyHost offlineEnv s))))
    with (framesOf 1%nat (wire s')) in Hfr.
  rewrite Hfr. vm_compute. reflexivity.
Defined.

(** X24. [addLog] reaches every connected client once and is held up by
    none: the entry is written once to each listed client whose write goes
    through and to no one else, while the buffer and the console get it
    whether or not any write fails, and the client list stays as it is. *)
Theorem addLog_reaches_clients host env message type s c :
  List.NoDup (logClients s) ->
  let logEntry := mkLog (now env (clk (world s))) message type in
  let s' := addLogS host env message type s in
  framesOf c (wire s')
  = (framesOf c (wire s)
     ++ if writable host c && existsb (Nat.eqb c) (logClients s) then [logEntry] else [])%list
  /\ logs (world s') = addLog (now env (clk (world s))) message type (logs (world s))
  /\ last (logs (world s')) = Some logEntry
  /\ console s' = (console s ++ [consoleLine host logEntry])%list
  /\ logClients s' = logClients s
  /\ store (world s') = store (world s).
Proof.
  intros Hnd logEntry s'.
  split; [| repeat split].
  - unfold s', addLogS, publish. simpl.
    rewrite framesOf_app, (framesOf_broadcast host c _ _ Hnd). reflexivity.
  - unfold s'. simpl. rewrite addLog_sliceLast. fold logEntry.
    unfold sliceLast. rewrite length_app. simpl List.length.
    destruct (Nat.le_gt_cases (List.length (logs (world s)) + 1) 100) as [Hle | Hgt].
    + replace (List.length (logs (world s)) + 1 - 100)%nat with 0%nat by lia.
      simpl. apply last_snoc.
    + rewrite skipn_app.
      replace (List.length (logs (world s)) + 1 - 100 - List.length (logs (world s)))%nat
        with 0%nat by lia.
      simpl. apply last_snoc.
Qed.

Lemma addLog_reaches_clients_witness :
  let host := mkHost (fun c => negb (Nat.eqb c 0)) (fun _ => true)
                (fun _ => "12:00:00") "/srv/app" in
  let s := serveAll defaultConfig (firstn 3 morning) bootServer in
  let s' := addLogS host offlineEnv "note" info s in
  List.NoDup (logClients s)
  /\ List.length (framesOf 0%nat (wire s')) = List.length (framesOf 0%nat (wire s))
  /\ List.length (framesOf 1%nat (wire s')) = S (List.length (framesOf 1%nat (wire s)))
  /\ List.length (logs (world s')) = S (List.length (logs (world s))).
Proof.
  intros host s s'.
  assert (Hnd : List.NoDup (logClients s)).
  { vm_compute. repeat constructor; [intros [Heq | []]; discriminate | intros []]. }
  split; [exact Hnd|].
  destruct (addLog_reaches_clients host offlineEnv "note" info s 0%nat Hnd) as (H0 & Hl & _).
  destruct (addLog_reaches_clients host offlineEnv "note" info s 1%nat Hnd) as (H1 & _).
  fold s' in H0, H1, Hl. rewrite H0, H1, Hl.
  repeat split; vm_compute; reflexivity.
Defined.

(** X25. The log channel is kept apart from the sessions: what an event
    leaves as process state (store, log buffer, counters) does not depend
    on who is connected to [/api/logs], on what was written or on whether
    writes fail; for one of the four handlers it is what the handler alone
    leaves, with the handler's response as the reply; and every other
    route and event leaves the session store as it was. *)
Theorem log_channel_is_separate keycloak host host' env i s clients n w c :
  world (fst (serve keycloak host env i s))
  = world (fst (serve keycloak host' env i (mkServer (world s) clients n w c)))
  /\ match i with
     | Auth leg req =>
         world (fst (serve keycloak host env i s))
         = final (handle env (handler keycloak leg req) (world s))
         /\ snd (serve keycloak host env i s)
            = Some (Answer (response (handle env (handler keycloak leg req) (world s))))
     | _ => store (world (fst (serve keycloak host env i s))) = store (world s)
     end.
Proof.
  destruct i as [leg req | | | res | | msg]; simpl; try (split; reflexivity).
  split; [| split; [| reflexivity]].
  - match goal with
    | |- world (fold_left _ ?es ?s1) = world (fold_left _ ?es' ?s2) =>
        destruct (publish_all host es s1) as (-> & _);
        destruct (publish_all host' es' s2) as (-> & _)
    end. reflexivity.
  - match goal with
    | |- world (fold_left _ ?es ?s1) = _ =>
        destruct (publish_all host es s1) as (-> & _)
    end. reflexivity.
Qed.
